(* ===================================================================== *)
(* cloud.terraform -- inventory plugin `terraform_provider`              *)
(*                                                                       *)
(* A shallow embedding of plugins/inventory/terraform_provider.py:       *)
(*   _add_group, _add_host, create_inventory and parse,                  *)
(* together with the properties of the inventory specification.          *)
(*                                                                       *)
(* Calls on the `inventory` object are recorded as a sequence of         *)
(* `inv_call`s, in the order the Python code issues them.  Calls of the  *)
(* external terraform binary go through three commands that are          *)
(* parameters of the development (Section Orchestrator): they read and   *)
(* change an abstract `World` and either return or raise.                *)
(* ===================================================================== *)

From stdpp Require Import base option list strings gmap.

Local Open Scope string_scope.
Local Open Scope list_scope.
Local Set Warnings "-register-all".

(* --------------------------------------------------------------------- *)
(* Data model (module_utils/models.py)                                   *)
(* --------------------------------------------------------------------- *)

(** Modelled from the spec: the class [TerraformAnsibleProvider] of
    module_utils/models.py is not part of the sources at hand.  It is the
    derived view of section 3 (GroupAttributes / HostAttributes): a name, the
    groups of a host, the children of a group, and a mapping of variables.
    A Python dict iterates in insertion order, so [variables] is kept as the
    list of its items. *)
Record TerraformAnsibleProvider := {
  name : string;
  groups : list string;
  children : list string;
  variables : list (string * string)
}.

(** Modelled from the spec: the class [TerraformModuleResource] of
    module_utils/models.py is not part of the sources at hand.  Section 3,
    ModuleResource: a node of the resource tree with a type tag and its
    attribute values.  [type_] is the Python attribute [type]. *)
Record TerraformModuleResource := {
  type_ : string;
  values : TerraformAnsibleProvider
}.

(** Modelled from the spec: [TerraformAnsibleProvider.from_json] is not part
    of the sources at hand; it exposes the attributes of a resource as the
    derived view. *)
Definition from_json (resource : TerraformModuleResource)
  : TerraformAnsibleProvider := values resource.

(** Modelled from the spec: the module classes of module_utils/models.py
    are not part of the sources at hand.  Section 6: a module of the state
    document has its own resources and its child modules, recursively
    nested, in their declared order. *)
Inductive TerraformModule :=
  Build_TerraformModule (resources : list TerraformModuleResource)
                        (child_modules : list TerraformModule).

Definition resources (m : TerraformModule) : list TerraformModuleResource :=
  match m with Build_TerraformModule rs _ => rs end.

Definition child_modules (m : TerraformModule) : list TerraformModule :=
  match m with Build_TerraformModule _ cs => cs end.

(** Modelled from the spec: [flatten_resources] of module_utils/models.py is
    not part of the sources at hand.  Section 4.3: root resources first, then
    the child modules in their declared order, depth-first. *)
Fixpoint flatten_resources (m : TerraformModule) : list TerraformModuleResource :=
  match m with
  | Build_TerraformModule rs cs =>
      rs ++
      (fix flatten_children (cs : list TerraformModule) :=
         match cs with
         | [] => []
         | c :: cs' => flatten_resources c ++ flatten_children cs'
         end) cs
  end.

(** Modelled from the spec: [TerraformShow] of module_utils/models.py is
    not part of the sources at hand.  Section 6: the decoded state document,
    of which the Python code reads [state.values.root_module]. *)
Record TerraformShowValues := { root_module : TerraformModule }.
Record TerraformShow := { show_values : TerraformShowValues }.

(** The state document whose root module has the resources [rs] and the
    child modules [cs]. *)
Definition document (rs : list TerraformModuleResource) (cs : list TerraformModule)
  : TerraformShow :=
  {| show_values := {| root_module := Build_TerraformModule rs cs |} |}.

(** Modelled from the spec: [TerraformWorkspaceContext] of
    module_utils/models.py is not part of the sources at hand.  Section 3,
    WorkspaceContext: the active workspace and the known workspaces; line 243
    builds it with [current="default", all=[]]. *)
Record TerraformWorkspaceContext := {
  current : string;
  all : list string
}.

(* --------------------------------------------------------------------- *)
(* Calls on the inventory object                                         *)
(* --------------------------------------------------------------------- *)

(** The four methods of the inventory that the plugin calls.
    [add_host name None] is [inventory.add_host(name)],
    [add_host name (Some g)] is [inventory.add_host(name, group=g)]. *)
Inductive inv_call :=
| add_group (group : string)
| add_child (group child : string)
| add_host (host : string) (group : option string)
| set_variable (entity varname value : string).

#[global] Instance inv_call_eq_dec : EqDecision inv_call.
Proof. solve_decision. Defined.

(** Python truthiness of a list: [if attributes.children:]. *)
Definition truthy {A} (l : list A) : bool :=
  match l with [] => false | _ => true end.

(* lines 174-183 *)
Definition _add_group (resource : TerraformModuleResource) : list inv_call :=
  let attributes := from_json resource in
  [add_group (name attributes)] ++
  (if truthy (children attributes)
   then flat_map (fun child => [add_group child; add_child (name attributes) child])
                 (children attributes)
   else []) ++
  (if truthy (variables attributes)
   then map (fun kv => set_variable (name attributes) kv.1 kv.2)
            (variables attributes)
   else []).

(* lines 185-194 *)
Definition _add_host (resource : TerraformModuleResource) : list inv_call :=
  let attributes := from_json resource in
  [add_host (name attributes) None] ++
  (if truthy (groups attributes)
   then flat_map (fun group => [add_group group; add_host (name attributes) (Some group)])
                 (groups attributes)
   else []) ++
  (if truthy (variables attributes)
   then map (fun kv => set_variable (name attributes) kv.1 kv.2)
            (variables attributes)
   else []).

(** The body of the inner loop of [create_inventory] (lines 208-211). *)
Definition classify (resource : TerraformModuleResource) : list inv_call :=
  if String.eqb (type_ resource) "ansible_group" then _add_group resource
  else if String.eqb (type_ resource) "ansible_host" then _add_host resource
  else [].

(* lines 196-211 *)
Fixpoint create_inventory (state_content : list (option TerraformShow))
         (search_child_modules : bool) : list inv_call :=
  match state_content with
  | [] => []
  | None :: rest => create_inventory rest search_child_modules
  | Some state :: rest =>
      let root_resources :=
        if negb search_child_modules
        then resources (root_module (show_values state))
        else flatten_resources (root_module (show_values state)) in
      flat_map classify root_resources ++ create_inventory rest search_child_modules
  end.

(** The calls issued for one state document (lines 202-211). *)
Definition state_calls (search_child_modules : bool) (state : TerraformShow)
  : list inv_call :=
  create_inventory [Some state] search_child_modules.

(** Every call that makes a host a member of a group comes directly after
    the call that creates that group. *)
Definition group_first (cs : list inv_call) : Prop :=
  forall (i : nat) (h g : string),
    cs !! i = Some (add_host h (Some g)) ->
    exists j, i = S j /\ cs !! j = Some (add_group g).

(* --------------------------------------------------------------------- *)
(* Exceptions, events and the monad of [parse]                            *)
(* --------------------------------------------------------------------- *)

(** Modelled from the spec: module_utils/errors.py is not part of the
    sources at hand.  Section 7 keeps the warning-level condition
    ([TerraformWarning]) apart from the fatal errors ([TerraformError]); the
    code reads the [message] of both.  [OtherError] stands for any other
    exception (the ValueError of [get_bin_path], a failing subprocess). *)
Inductive exn :=
| TerraformWarning (message : string)
| TerraformError (message : string)
| OtherError (message : string).

Inductive outcome (A : Type) :=
| Return (a : A)
| Raise (e : exn).
Arguments Return {A} a.
Arguments Raise {A} e.

(** [TerraformCommands(module_run_command, path, terraform_binary, False)]:
    the object on which the three terraform commands are called. *)
Record TerraformCommands := {
  project_path : string;
  binary_path : string
}.

(** What a run does, in order: commands of the terraform binary and calls
    on the inventory. *)
Inductive event :=
| ev_workspace_list (terraform : TerraformCommands)
| ev_workspace_select (terraform : TerraformCommands) (workspace : string)
| ev_show (terraform : TerraformCommands) (state_file : string)
| ev_inventory (c : inv_call).

(** The inventory calls of a trace, in order. *)
Definition inventory_calls (t : list event) : list inv_call :=
  omap (fun ev => match ev with ev_inventory c => Some c | _ => None end) t.

(** The workspaces selected in a trace, in order. *)
Definition selects (t : list event) : list (TerraformCommands * string) :=
  omap (fun ev => match ev with
                  | ev_workspace_select tf ws => Some (tf, ws)
                  | _ => None end) t.

(** A computation reads and changes the world, returns or raises, and
    leaves a trace of events. *)
Definition M (W A : Type) : Type := W -> outcome A * W * list event.

#[global] Instance M_ret {W} : MRet (M W) :=
  fun A a w => (Return a, w, []).

#[global] Instance M_bind {W} : MBind (M W) :=
  fun A B f m w =>
    match m w with
    | (Return a, w1, t1) =>
        match f a w1 with (r, w2, t2) => (r, w2, t1 ++ t2) end
    | (Raise e, w1, t1) => (Raise e, w1, t1)
    end.

Definition raise {W A} (e : exn) : M W A :=
  fun w => (Raise e, w, []).

(** [try: body except TerraformWarning as e: handler(e.message)] *)
Definition try_except_warning {W A} (body : M W A) (handler : string -> M W A)
  : M W A :=
  fun w =>
    match body w with
    | (Raise (TerraformWarning message), w1, t1) =>
        match handler message w1 with (r, w2, t2) => (r, w2, t1 ++ t2) end
    | r => r
    end.

(** One command of the terraform binary, recorded in the trace. *)
Definition command {W A} (ev : event) (c : W -> outcome A * W) : M W A :=
  fun w => match c w with (r, w1) => (r, w1, [ev]) end.

(** A function that only returns or raises. *)
Definition lift {W A} (o : outcome A) : M W A :=
  fun w => (o, w, []).

(** Calls on the inventory, recorded in the trace. *)
Definition inventory {W} (cs : list inv_call) : M W unit :=
  fun w => (Return tt, w, map ev_inventory cs).

(** A computation that makes no call on the inventory. *)
Definition quiet {W A} (m : M W A) : Prop :=
  forall w, inventory_calls (m w).2 = [].

(* --------------------------------------------------------------------- *)
(* The configuration                                                     *)
(* --------------------------------------------------------------------- *)

(** [project_path] accepts a string or a list of strings. *)
Inductive raw_path :=
| Str (s : string)
| List (l : list string).

(** The dict read by [read_config_data]; a key that is absent is [None]. *)
Record Config := {
  cfg_project_path : option raw_path;
  cfg_state_file : option string;
  cfg_search_child_modules : option bool;
  cfg_binary_path : option string;
  cfg_workspace : option string
}.

(** [x in l] on a list of strings. *)
Definition str_in (x : string) (l : list string) : bool :=
  existsb (String.eqb x) l.

(* --------------------------------------------------------------------- *)
(* parse                                                                 *)
(* --------------------------------------------------------------------- *)

Section Orchestrator.

(** The state of everything outside the plugin: the project directories,
    their workspaces and their state files. *)
Context {World : Type}.

(** [os.getcwd()] *)
Variable getcwd : string.
(** [validate_bin_path(terraform_binary)] *)
Variable validate_bin_path : string -> outcome unit.
(** [process.get_bin_path("terraform", required=True)] *)
Variable get_bin_path : outcome string.
(** [terraform.workspace_list()] *)
Variable workspace_list :
  TerraformCommands -> World -> outcome TerraformWorkspaceContext * World.
(** [terraform.workspace(WorkspaceCommand.SELECT, workspace)] *)
Variable workspace_select :
  TerraformCommands -> string -> World -> outcome unit * World.
(** [terraform.show(state_file)] *)
Variable show :
  TerraformCommands -> string -> World -> outcome (option TerraformShow) * World.

(* lines 239-243 *)
Definition get_workspace_ctx (terraform : TerraformCommands)
  : M World TerraformWorkspaceContext :=
  try_except_warning
    (command (ev_workspace_list terraform) (workspace_list terraform))
    (fun _ => mret {| current := "default"; all := [] |}).

(* lines 255-258: the value appended to [state_content] *)
Definition retrieve_state (terraform : TerraformCommands) (state_file : string)
  : M World (option TerraformShow) :=
  try_except_warning
    (command (ev_show terraform state_file) (show terraform state_file))
    (fun message => raise (TerraformError message)).

(* lines 251-252 *)
Definition select_workspace (terraform : TerraformCommands) (workspace : string)
           (workspace_ctx : TerraformWorkspaceContext) : M World unit :=
  if negb (String.eqb (current workspace_ctx) workspace)
  then command (ev_workspace_select terraform workspace)
               (workspace_select terraform workspace)
  else mret tt.

(* lines 246-258 *)
Definition use_workspace (terraform : TerraformCommands)
           (state_file workspace : string)
           (workspace_ctx : TerraformWorkspaceContext)
  : M World (option TerraformShow) :=
  if negb (str_in workspace (all workspace_ctx))
     && negb (String.eqb workspace (current workspace_ctx))
  then raise (TerraformError
                ("Workspace " +:+ workspace +:+ " does not exist in "
                 +:+ project_path terraform))
  else
    select_workspace terraform workspace workspace_ctx ≫= fun _ =>
    retrieve_state terraform state_file.

(** The body of the loop over the paths (lines 235-258). *)
Definition parse_path (terraform_binary state_file workspace path : string)
  : M World (option TerraformShow) :=
  let terraform := {| project_path := path; binary_path := terraform_binary |} in
  workspace_ctx ← get_workspace_ctx terraform;
  use_workspace terraform state_file workspace workspace_ctx.

(** The loop over the paths (lines 234-258), from the [state_content]
    accumulated so far. *)
Fixpoint parse_paths (terraform_binary state_file workspace : string)
         (paths : list string) (state_content : list (option TerraformShow))
  : M World (list (option TerraformShow)) :=
  match paths with
  | [] => mret state_content
  | path :: rest =>
      state ← parse_path terraform_binary state_file workspace path;
      parse_paths terraform_binary state_file workspace rest
                  (state_content ++ [state])
  end.

(* lines 221-226 *)
Definition resolve_binary (cfg : Config) : outcome string :=
  match cfg_binary_path cfg with
  | Some terraform_binary =>
      match validate_bin_path terraform_binary with
      | Return _ => Return terraform_binary
      | Raise e => Raise e
      end
  | None => get_bin_path
  end.

(* lines 218, 231-232 *)
Definition project_paths (cfg : Config) : list string :=
  match default (Str getcwd) (cfg_project_path cfg) with
  | Str s => [s]
  | List l => l
  end.

(* lines 213-261, from the configuration that [read_config_data] returned *)
Definition parse (cfg : Config) : M World unit :=
  let state_file := default "" (cfg_state_file cfg) in
  let search_child_modules := default true (cfg_search_child_modules cfg) in
  let workspace := default "default" (cfg_workspace cfg) in
  terraform_binary ← lift (resolve_binary cfg);
  state_content ← parse_paths terraform_binary state_file workspace
                              (project_paths cfg) [];
  if truthy state_content
  then inventory (create_inventory state_content search_child_modules)
  else mret tt.

End Orchestrator.

(* --------------------------------------------------------------------- *)
(* The inventory graph                                                   *)
(* --------------------------------------------------------------------- *)

(** Modelled from the spec: the inventory object belongs to the automation
    host and is not part of the sources at hand.  Sections 3 and 9 describe
    it as sets of groups and hosts, a set of parent/child edges, a set of
    host memberships, and a variable map per entity, keyed by name, where a
    repeated call adds nothing and a later write of a variable wins. *)
Record InventoryGraph := {
  ig_groups : gset string;
  ig_edges : gset (string * string);
  ig_hosts : gset string;
  ig_members : gset (string * string);
  ig_vars : gmap (string * string) string
}.

Definition empty_graph : InventoryGraph :=
  {| ig_groups := ∅; ig_edges := ∅; ig_hosts := ∅; ig_members := ∅; ig_vars := ∅ |}.

(** Modelled from the spec: the effect of one call of the sink contract of
    section 6 on the graph. *)
Definition apply_call (c : inv_call) (g : InventoryGraph) : InventoryGraph :=
  match c with
  | add_group n =>
      {| ig_groups := {[n]} ∪ ig_groups g; ig_edges := ig_edges g;
         ig_hosts := ig_hosts g; ig_members := ig_members g; ig_vars := ig_vars g |}
  | add_child p c =>
      {| ig_groups := ig_groups g; ig_edges := {[(p, c)]} ∪ ig_edges g;
         ig_hosts := ig_hosts g; ig_members := ig_members g; ig_vars := ig_vars g |}
  | add_host h None =>
      {| ig_groups := ig_groups g; ig_edges := ig_edges g;
         ig_hosts := {[h]} ∪ ig_hosts g; ig_members := ig_members g;
         ig_vars := ig_vars g |}
  | add_host h (Some n) =>
      {| ig_groups := ig_groups g; ig_edges := ig_edges g;
         ig_hosts := {[h]} ∪ ig_hosts g; ig_members := {[(h, n)]} ∪ ig_members g;
         ig_vars := ig_vars g |}
  | set_variable e k v =>
      {| ig_groups := ig_groups g; ig_edges := ig_edges g;
         ig_hosts := ig_hosts g; ig_members := ig_members g;
         ig_vars := <[(e, k) := v]> (ig_vars g) |}
  end.

(** The calls of a sequence, applied in order. *)
Definition apply_calls (cs : list inv_call) (g : InventoryGraph) : InventoryGraph :=
  foldl (fun g c => apply_call c g) g cs.

(** What a graph holds after [cs], seen as what [cs] adds to the empty
    graph joined with what was there: sets grow, and in the variable map
    the writes of [cs] win. *)
Definition extends (cs : list inv_call) (g g' : InventoryGraph) : Prop :=
  ig_groups g' = ig_groups (apply_calls cs empty_graph) ∪ ig_groups g /\
  ig_edges g' = ig_edges (apply_calls cs empty_graph) ∪ ig_edges g /\
  ig_hosts g' = ig_hosts (apply_calls cs empty_graph) ∪ ig_hosts g /\
  ig_members g' = ig_members (apply_calls cs empty_graph) ∪ ig_members g /\
  ig_vars g' = ig_vars (apply_calls cs empty_graph) ∪ ig_vars g.

(** Every membership of the graph is in a group of the graph. *)
Definition no_dangling (g : InventoryGraph) : Prop :=
  forall h n, (h, n) ∈ ig_members g -> n ∈ ig_groups g.

(* --------------------------------------------------------------------- *)
(* Reading a sequence of calls and a trace                               *)
(* --------------------------------------------------------------------- *)

(** What a call refers to.  Each inner list is one requirement, met by any
    of its calls: an edge needs its parent group and its child group, a
    membership needs its group, a variable needs its entity, which is a
    group or a host. *)
Definition requirements (c : inv_call) : list (list inv_call) :=
  match c with
  | add_group _ => []
  | add_child p ch => [[add_group p]; [add_group ch]]
  | add_host _ None => []
  | add_host _ (Some g) => [[add_group g]]
  | set_variable e _ _ => [[add_group e; add_host e None]]
  end.

(** Every call refers only to what an earlier call of the sequence made. *)
Definition well_ordered (cs : list inv_call) : Prop :=
  forall l1 c l2 alts,
    cs = l1 ++ c :: l2 -> alts ∈ requirements c ->
    exists d, d ∈ alts /\ d ∈ l1.

(** The same, for a sequence that comes after the calls [seen]. *)
Fixpoint ordered_from (seen cs : list inv_call) : Prop :=
  match cs with
  | [] => True
  | c :: cs' =>
      (forall alts, alts ∈ requirements c -> exists d, d ∈ alts /\ d ∈ seen) /\
      ordered_from (seen ++ [c]) cs'
  end.

(** The resources that [create_inventory] looks at: of every document that
    is present, the resources of the root module, and with
    [search_child_modules] those of the child modules after them. *)
Definition considered (search_child_modules : bool)
           (state_content : list (option TerraformShow))
  : list TerraformModuleResource :=
  flat_map (fun state =>
              if negb search_child_modules
              then resources (root_module (show_values state))
              else flatten_resources (root_module (show_values state)))
           (omap id state_content).

(** The variables that a sequence of calls sets, in order. *)
Definition assignments (cs : list inv_call) : list (string * string * string) :=
  omap (fun c => match c with
                 | set_variable e k v => Some (e, k, v)
                 | _ => None end) cs.

(** The projects whose workspaces a trace lists, in order. *)
Definition listed (t : list event) : list TerraformCommands :=
  omap (fun ev => match ev with
                  | ev_workspace_list tf => Some tf
                  | _ => None end) t.

(** The states that a trace reads, in order. *)
Definition shown (t : list event) : list (TerraformCommands * string) :=
  omap (fun ev => match ev with
                  | ev_show tf state_file => Some (tf, state_file)
                  | _ => None end) t.

(* --------------------------------------------------------------------- *)
(* A small terraform, to run [parse] on concrete projects                *)
(* --------------------------------------------------------------------- *)

Module Sim.

(** What the terraform binary answers in one project directory. *)
Record Project := {
  workspaces : outcome TerraformWorkspaceContext;
  state : outcome (option TerraformShow)
}.

(** The project directories, by path. *)
Definition World := list (string * Project).

Fixpoint find (path : string) (w : World) : option Project :=
  match w with
  | [] => None
  | (p, prj) :: w' => if String.eqb p path then Some prj else find path w'
  end.

Definition not_initialized {A} : outcome A :=
  Raise (TerraformError "not a terraform project").

Definition workspace_list (terraform : TerraformCommands) (w : World)
  : outcome TerraformWorkspaceContext * World :=
  match find (project_path terraform) w with
  | Some prj => (workspaces prj, w)
  | None => (not_initialized, w)
  end.

(** Selecting a workspace moves the workspace pointer of the project. *)
Definition select_in (workspace : string) (prj : Project) : Project :=
  match workspaces prj with
  | Return ctx =>
      {| workspaces := Return {| current := workspace; all := all ctx |};
         state := state prj |}
  | Raise _ => prj
  end.

Definition workspace_select (terraform : TerraformCommands) (workspace : string)
           (w : World) : outcome unit * World :=
  match find (project_path terraform) w with
  | Some prj =>
      (Return tt,
       map (fun e => if String.eqb e.1 (project_path terraform)
                     then (e.1, select_in workspace e.2) else e) w)
  | None => (not_initialized, w)
  end.

Definition show (terraform : TerraformCommands) (state_file : string) (w : World)
  : outcome (option TerraformShow) * World :=
  match find (project_path terraform) w with
  | Some prj => (state prj, w)
  | None => (not_initialized, w)
  end.

(** [parse] with this terraform, run in the directory "." with the
    binary found as "terraform". *)
Definition parse (cfg : Config) : M World unit :=
  parse "." (fun _ => Return tt) (Return "terraform")
        workspace_list workspace_select show cfg.

Definition parse_path (workspace path : string) : M World (option TerraformShow) :=
  parse_path workspace_list workspace_select show "terraform" "" workspace path.

Definition terraform_at (path : string) : TerraformCommands :=
  {| project_path := path; binary_path := "terraform" |}.

(* Resources and state documents *)

Definition host (n : string) (gs : list string) (vs : list (string * string))
  : TerraformModuleResource :=
  {| type_ := "ansible_host";
     values := {| name := n; groups := gs; children := []; variables := vs |} |}.

Definition group (n : string) (cs : list string) (vs : list (string * string))
  : TerraformModuleResource :=
  {| type_ := "ansible_group";
     values := {| name := n; groups := []; children := cs; variables := vs |} |}.

Definition unrelated : TerraformModuleResource :=
  {| type_ := "unrelated_resource";
     values := {| name := "bucket"; groups := []; children := []; variables := [] |} |}.

(** The root module is empty; a child module declares the host db1. *)
Definition db1_in_child : TerraformShow :=
  document [] [Build_TerraformModule [host "db1" [] []] []].

Definition web1_doc : TerraformShow :=
  document [host "web1" ["web"] [("region", "us-east")]] [].

Definition default_only : outcome TerraformWorkspaceContext :=
  Return {| current := "default"; all := ["default"] |}.

Definition dev_and_default : outcome TerraformWorkspaceContext :=
  Return {| current := "default"; all := ["dev"; "default"] |}.

(** Project "a" has no state yet: show reports a warning.
    Project "b" declares the host web1. *)
Definition world_warning : World :=
  [("a", {| workspaces := default_only;
            state := Raise (TerraformWarning "No state file") |});
   ("b", {| workspaces := default_only; state := Return (Some web1_doc) |})].

(** Project "b" fails hard after project "a" was read. *)
Definition world_hard_failure : World :=
  [("a", {| workspaces := default_only; state := Return (Some web1_doc) |});
   ("b", {| workspaces := default_only;
            state := Raise (TerraformError "Error: state is corrupt") |})].

(** Project "a" is fine; project "b" knows dev and default, and
    project "c" lists no workspaces (a warning). *)
Definition world_workspaces : World :=
  [("a", {| workspaces := default_only; state := Return (Some web1_doc) |});
   ("b", {| workspaces := dev_and_default; state := Return (Some db1_in_child) |});
   ("c", {| workspaces := Raise (TerraformWarning "No workspaces");
            state := Return None |})].

(** Project "a" is on the workspace staging; project "b" knows only dev
    and default. *)
Definition world_staging : World :=
  [("a", {| workspaces :=
              Return {| current := "staging"; all := ["default"; "staging"] |};
            state := Return (Some web1_doc) |});
   ("b", {| workspaces := dev_and_default; state := Return (Some db1_in_child) |});
   ("c", {| workspaces := default_only; state := Return None |})].

Definition world_child : World :=
  [("proj", {| workspaces := default_only; state := Return (Some db1_in_child) |})].

Definition cfg_paths (paths : list string) (workspace : option string) : Config :=
  {| cfg_project_path := Some (List paths);
     cfg_state_file := None;
     cfg_search_child_modules := None;
     cfg_binary_path := None;
     cfg_workspace := workspace |}.

End Sim.

Example sim_two_projects :
  Sim.parse (Sim.cfg_paths ["a"; "b"] None) Sim.world_workspaces
  = (Return tt, Sim.world_workspaces,
     [ev_workspace_list (Sim.terraform_at "a"); ev_show (Sim.terraform_at "a") "";
      ev_workspace_list (Sim.terraform_at "b"); ev_show (Sim.terraform_at "b") "";
      ev_inventory (add_host "web1" None);
      ev_inventory (add_group "web");
      ev_inventory (add_host "web1" (Some "web"));
      ev_inventory (set_variable "web1" "region" "us-east");
      ev_inventory (add_host "db1" None)]).
Proof. vm_compute. reflexivity. Qed.

(* ===================================================================== *)
(* Properties of the graph builder                                       *)
(* ===================================================================== *)

Section Builder.

Implicit Types (r h u : TerraformModuleResource) (rs : list TerraformModuleResource).
Implicit Types (docs : list (option TerraformShow)) (scm : bool).

Lemma create_inventory_app docs1 docs2 scm :
  create_inventory (docs1 ++ docs2) scm
  = create_inventory docs1 scm ++ create_inventory docs2 scm.
Proof.
  induction docs1 as [|[state|] docs1 IH]; simpl; [done| |done].
  by rewrite IH, app_assoc.
Qed.

Lemma flat_map_app' {A B} (f : A -> list B) (l1 l2 : list A) :
  flat_map f (l1 ++ l2) = flat_map f l1 ++ flat_map f l2.
Proof. induction l1 as [|a l1 IH]; simpl; [done|]. by rewrite IH, app_assoc. Qed.

Lemma elem_of_flat_map {A B} (f : A -> list B) (l : list A) (a : A) (b : B) :
  a ∈ l -> b ∈ f a -> b ∈ flat_map f l.
Proof.
  intros Ha Hb. induction l as [|a' l IH]; simpl.
  - by apply elem_of_nil in Ha.
  - apply elem_of_app. apply elem_of_cons in Ha as [->|Ha]; [by left|].
    right. by apply IH.
Qed.

Lemma classify_unrecognized u :
  type_ u ≠ "ansible_group" -> type_ u ≠ "ansible_host" -> classify u = [].
Proof.
  intros Hg Hh. unfold classify.
  destruct (String.eqb_spec (type_ u) "ansible_group"); [done|].
  by destruct (String.eqb_spec (type_ u) "ansible_host").
Qed.

Lemma classify_host h :
  type_ h = "ansible_host" -> classify h = _add_host h.
Proof. intros Hh. unfold classify. by rewrite Hh. Qed.

Lemma classify_group r :
  type_ r = "ansible_group" -> classify r = _add_group r.
Proof. intros Hr. unfold classify. by rewrite Hr. Qed.

Lemma root_in_flatten (m : TerraformModule) r :
  r ∈ resources m -> r ∈ flatten_resources m.
Proof. destruct m as [rs cs]; simpl. intros Hr. apply elem_of_app. by left. Qed.

Lemma flatten_resources_root rs1 rs2 (cs : list TerraformModule) :
  flatten_resources (Build_TerraformModule (rs1 ++ rs2) cs)
  = rs1 ++ flatten_resources (Build_TerraformModule rs2 cs).
Proof. simpl. by rewrite app_assoc. Qed.

(** [group_first] is kept by concatenation. *)
Lemma group_first_app (cs1 cs2 : list inv_call) :
  group_first cs1 -> group_first cs2 -> group_first (cs1 ++ cs2).
Proof.
  intros H1 H2 i h g Hi.
  apply lookup_app_Some in Hi as [Hi|[Hlen Hi]].
  - destruct (H1 _ _ _ Hi) as (j & -> & Hj).
    exists j. split; [done|]. by apply lookup_app_l_Some.
  - destruct (H2 _ _ _ Hi) as (j & Hij & Hj).
    exists (length cs1 + j). split; [lia|].
    rewrite lookup_app_r by lia.
    by replace (length cs1 + j - length cs1) with j by lia.
Qed.

Lemma group_first_nil : group_first [].
Proof. intros i h g Hi. by rewrite lookup_nil in Hi. Qed.

Lemma group_first_flat_map {A} (f : A -> list inv_call) (l : list A) :
  (forall a, group_first (f a)) -> group_first (flat_map f l).
Proof.
  intros Hf. induction l as [|a l IH]; simpl; [apply group_first_nil|].
  by apply group_first_app.
Qed.

Lemma group_first_set_variables (e : string) (vs : list (string * string)) :
  group_first (map (fun kv => set_variable e kv.1 kv.2) vs).
Proof.
  intros i h g Hi. rewrite list_lookup_fmap in Hi.
  destruct (vs !! i); simpl in Hi; congruence.
Qed.

Lemma group_first_add_host r : group_first (_add_host r).
Proof.
  unfold _add_host. repeat apply group_first_app.
  - intros [|i] h g Hi; simpl in Hi; [congruence|by rewrite lookup_nil in Hi].
  - destruct (truthy _); [|apply group_first_nil].
    apply group_first_flat_map. intros a [|[|i]] h g Hi; simpl in Hi;
      [congruence| |by rewrite lookup_nil in Hi].
    exists 0. split; [done|]. simpl. congruence.
  - destruct (truthy _); [|apply group_first_nil].
    apply group_first_set_variables.
Qed.

Lemma group_first_add_group r : group_first (_add_group r).
Proof.
  unfold _add_group. repeat apply group_first_app.
  - intros [|i] h g Hi; simpl in Hi; [congruence|by rewrite lookup_nil in Hi].
  - destruct (truthy _); [|apply group_first_nil].
    apply group_first_flat_map. intros a [|[|i]] h g Hi; simpl in Hi;
      [congruence|congruence|by rewrite lookup_nil in Hi].
  - destruct (truthy _); [|apply group_first_nil].
    apply group_first_set_variables.
Qed.

Lemma group_first_classify r : group_first (classify r).
Proof.
  unfold classify. destruct (String.eqb _ _); [apply group_first_add_group|].
  destruct (String.eqb _ _); [apply group_first_add_host|apply group_first_nil].
Qed.

(** In a whole pass of the builder no membership is requested for a
    group that was not created just before. *)
Lemma group_first_create_inventory docs scm :
  group_first (create_inventory docs scm).
Proof.
  induction docs as [|[state|] docs IH]; simpl; [apply group_first_nil| |done].
  apply group_first_app; [|done].
  apply group_first_flat_map, group_first_classify.
Qed.

End Builder.

(** C5.  A resource is classified by its type tag alone, and only the tags
    "ansible_group" and "ansible_host" produce calls.  A resource [u] with
    any other tag is ignored: the builder is a total function, and the calls
    for a document are the same with [u] and without it.  A host resource
    next to [u] in the root module is still added to the inventory. *)
Theorem unrecognized_type_ignored
        (docs1 docs2 : list (option TerraformShow))
        (rs1 rs2 : list TerraformModuleResource) (u : TerraformModuleResource)
        (cs : list TerraformModule) (scm : bool) :
  type_ u ≠ "ansible_group" -> type_ u ≠ "ansible_host" ->
  (forall r, classify r ≠ [] <->
             type_ r = "ansible_group" \/ type_ r = "ansible_host") /\
  create_inventory (docs1 ++ Some (document (rs1 ++ u :: rs2) cs) :: docs2) scm
  = create_inventory (docs1 ++ Some (document (rs1 ++ rs2) cs) :: docs2) scm /\
  (forall h, h ∈ rs1 ++ rs2 -> type_ h = "ansible_host" ->
             add_host (name (from_json h)) None
             ∈ create_inventory
                 (docs1 ++ Some (document (rs1 ++ u :: rs2) cs) :: docs2) scm).
Proof.
  intros Hg Hh.
  assert (Hsame :
    create_inventory (docs1 ++ Some (document (rs1 ++ u :: rs2) cs) :: docs2) scm
    = create_inventory (docs1 ++ Some (document (rs1 ++ rs2) cs) :: docs2) scm).
  { rewrite !create_inventory_app. f_equal. cbn [create_inventory]. f_equal.
    unfold document; cbn [show_values root_module resources].
    destruct scm; cbn [negb].
    - rewrite !flatten_resources_root, !flat_map_app'.
      change (u :: rs2) with ([u] ++ rs2).
      rewrite flatten_resources_root, flat_map_app'. simpl.
      by rewrite (classify_unrecognized u), app_nil_r.
    - rewrite !flat_map_app'. simpl. by rewrite (classify_unrecognized u). }
  split; [|split; [exact Hsame|]].
  - intros r. split.
    + intros Hne. unfold classify in Hne.
      destruct (String.eqb_spec (type_ r) "ansible_group"); [by left|].
      destruct (String.eqb_spec (type_ r) "ansible_host"); [by right|done].
    + intros [Hr|Hr].
      * by rewrite (classify_group r Hr).
      * by rewrite (classify_host r Hr).
  - intros h Hin Hhost. rewrite Hsame, create_inventory_app.
    apply elem_of_app; right. cbn [create_inventory].
    apply elem_of_app; left.
    apply (elem_of_flat_map classify _ h).
    + unfold document; cbn [show_values root_module resources].
      destruct scm; cbn [negb]; [|done].
      by apply (root_in_flatten (Build_TerraformModule (rs1 ++ rs2) cs)).
    + rewrite (classify_host h Hhost). unfold _add_host. simpl. by left.
Qed.

Lemma unrecognized_type_ignored_witness :
  type_ Sim.unrelated ≠ "ansible_group" /\ type_ Sim.unrelated ≠ "ansible_host" /\
  create_inventory [Some (document [Sim.unrelated; Sim.host "web1" ["web"] []] [])] false
  = [add_host "web1" None; add_group "web"; add_host "web1" (Some "web")].
Proof.
  split; [discriminate|split; [discriminate|]].
  destruct (unrecognized_type_ignored [] [] [] [Sim.host "web1" ["web"] []]
              Sim.unrelated [] false) as (_ & Hsame & _);
    [discriminate|discriminate|].
  simpl app in Hsame. rewrite Hsame. reflexivity.
Defined.

(** C6.  For a host record that names the group [g], [_add_host] issues
    [add_group g] and directly after it [add_host name (group=g)]; and every
    membership call of [_add_host] comes directly after the call that creates
    its group, so membership is never requested for a group that the builder
    did not create first. *)
Theorem group_created_before_membership (r : TerraformModuleResource) (g : string) :
  g ∈ groups (from_json r) ->
  (exists l1 l2,
      _add_host r
      = l1 ++ add_group g :: add_host (name (from_json r)) (Some g) :: l2) /\
  group_first (_add_host r).
Proof.
  intros Hg. split; [|apply group_first_add_host].
  unfold _add_host. cbv zeta.
  destruct (groups (from_json r)) as [|g0 gs] eqn:Hgs; [by apply elem_of_nil in Hg|].
  cbn [truthy]. rewrite <- Hgs in *. clear Hgs g0 gs.
  apply list_elem_of_split in Hg as (gs1 & gs2 & ->).
  rewrite flat_map_app'. cbn [flat_map].
  eexists (_ :: flat_map _ gs1), _. simpl. rewrite <- !app_assoc. simpl. reflexivity.
Qed.

Lemma group_created_before_membership_witness :
  "web" ∈ groups (from_json (Sim.host "web1" ["db"; "web"] [])) /\
  _add_host (Sim.host "web1" ["db"; "web"] []) !! 3 = Some (add_group "web") /\
  _add_host (Sim.host "web1" ["db"; "web"] []) !! 4 = Some (add_host "web1" (Some "web")).
Proof.
  assert (Hin : "web" ∈ groups (from_json (Sim.host "web1" ["db"; "web"] []))).
  { simpl. apply elem_of_cons; right. apply elem_of_cons; by left. }
  split; [exact Hin|].
  destruct (group_created_before_membership _ _ Hin) as [_ Hfirst].
  destruct (Hfirst 4 "web1" "web" eq_refl) as (j & Hj & Hgroup).
  injection Hj as <-. split; [exact Hgroup|reflexivity].
Defined.

(** C10.  State documents that are absent ([None]) are skipped: the calls of
    [create_inventory] are those of the same list without its absent
    entries, and they are exactly the calls of the documents that are
    present, in order.  [create_inventory] is a total function, so no error
    is raised. *)
Theorem absent_states_skipped (docs : list (option TerraformShow)) (scm : bool) :
  create_inventory docs scm
  = create_inventory (filter (fun s => is_Some s) docs) scm /\
  create_inventory docs scm = flat_map (state_calls scm) (omap id docs) /\
  (forall docs1 docs2, docs = docs1 ++ None :: docs2 ->
     create_inventory docs scm = create_inventory (docs1 ++ docs2) scm).
Proof.
  assert (Hflat : forall ds, create_inventory ds scm
                             = flat_map (state_calls scm) (omap id ds)).
  { induction ds as [|[state|] ds IH]; simpl; [done| |done].
    unfold state_calls at 1. simpl. by rewrite IH, app_nil_r. }
  split; [|split; [apply Hflat|]].
  - induction docs as [|[state|] docs IH]; [done| |].
    + rewrite filter_cons_True by (by eexists). simpl. by rewrite IH.
    + rewrite filter_cons_False by (by intros [? ?]). done.
  - intros docs1 docs2 ->. by rewrite !create_inventory_app.
Qed.

Lemma absent_states_skipped_witness :
  create_inventory [None; Some Sim.web1_doc; None] false
  = create_inventory ([] ++ [Some Sim.web1_doc; None]) false.
Proof.
  destruct (absent_states_skipped [None; Some Sim.web1_doc; None] false)
    as (_ & _ & Hskip).
  exact (Hskip [] [Some Sim.web1_doc; None] eq_refl).
Defined.

(* ===================================================================== *)
(* The builder on the inventory graph                                    *)
(* ===================================================================== *)

Section Graph.

Implicit Types (g : InventoryGraph) (c : inv_call) (cs : list inv_call).

Lemma graph_eq g1 g2 :
  ig_groups g1 = ig_groups g2 -> ig_edges g1 = ig_edges g2 ->
  ig_hosts g1 = ig_hosts g2 -> ig_members g1 = ig_members g2 ->
  ig_vars g1 = ig_vars g2 -> g1 = g2.
Proof. destruct g1, g2; simpl; by intros -> -> -> -> ->. Qed.

(** Every call of the sink is idempotent on the graph. *)
Lemma apply_call_idempotent c g :
  apply_call c (apply_call c g) = apply_call c g.
Proof.
  destruct c as [n|p ch|h [n|]|e k v]; apply graph_eq; simpl;
    first [reflexivity | apply insert_insert_eq
           | by rewrite (assoc_L (∪)), (idemp_L (∪))].
Qed.

Lemma apply_calls_app cs1 cs2 g :
  apply_calls (cs1 ++ cs2) g = apply_calls cs2 (apply_calls cs1 g).
Proof. apply foldl_app. Qed.

Lemma apply_calls_cons c cs g :
  apply_calls (c :: cs) g = apply_calls cs (apply_call c g).
Proof. reflexivity. Qed.

Lemma apply_call_extends c g : extends [c] g (apply_call c g).
Proof.
  unfold extends.
  destruct c as [n|p ch|h [n|]|e k v]; simpl; repeat split;
    first [ by rewrite (left_id_L ∅ (∪))
          | by rewrite (right_id_L ∅ (∪))
          | by rewrite insert_empty, insert_union_singleton_l ].
Qed.

Lemma apply_calls_extends cs g : extends cs g (apply_calls cs g).
Proof.
  revert g. induction cs as [|c cs IH]; intros g.
  - unfold extends. simpl. repeat split; by rewrite (left_id_L ∅ (∪)).
  - rewrite apply_calls_cons.
    destruct (IH (apply_call c g)) as (Hg1 & He1 & Hh1 & Hm1 & Hv1).
    destruct (IH (apply_call c empty_graph)) as (Hg2 & He2 & Hh2 & Hm2 & Hv2).
    destruct (apply_call_extends c g) as (Hg3 & He3 & Hh3 & Hm3 & Hv3).
    change (apply_calls [c] empty_graph) with (apply_call c empty_graph)
      in Hg3, He3, Hh3, Hm3, Hv3.
    unfold extends. rewrite apply_calls_cons.
    rewrite Hg1, He1, Hh1, Hm1, Hv1, Hg2, He2, Hh2, Hm2, Hv2,
      Hg3, He3, Hh3, Hm3, Hv3.
    repeat split; by rewrite !(assoc_L (∪)).
Qed.

(** A sequence of calls applied a second time changes nothing. *)
Lemma apply_calls_twice cs g :
  apply_calls cs (apply_calls cs g) = apply_calls cs g.
Proof.
  destruct (apply_calls_extends cs (apply_calls cs g)) as (Hg & He & Hh & Hm & Hv).
  destruct (apply_calls_extends cs g) as (Hg' & He' & Hh' & Hm' & Hv').
  apply graph_eq.
  - rewrite Hg, Hg'. by rewrite (assoc_L (∪)), (idemp_L (∪)).
  - rewrite He, He'. by rewrite (assoc_L (∪)), (idemp_L (∪)).
  - rewrite Hh, Hh'. by rewrite (assoc_L (∪)), (idemp_L (∪)).
  - rewrite Hm, Hm'. by rewrite (assoc_L (∪)), (idemp_L (∪)).
  - rewrite Hv, Hv'. by rewrite (assoc_L (∪)), (idemp_L (∪)).
Qed.

Lemma group_first_init cs c : group_first (cs ++ [c]) -> group_first cs.
Proof.
  intros Hfirst i h n Hi.
  destruct (Hfirst i h n) as (j & -> & Hj); [by apply lookup_app_l_Some|].
  exists j. split; [done|].
  apply lookup_lt_Some in Hi. by rewrite lookup_app_l in Hj by lia.
Qed.

Lemma group_first_last cs h n :
  group_first (cs ++ [add_host h (Some n)]) ->
  exists cs0, cs = cs0 ++ [add_group n].
Proof.
  intros Hfirst.
  destruct (Hfirst (length cs) h n) as (j & Hj & Hgroup).
  { by rewrite lookup_app_r, Nat.sub_diag by lia. }
  destruct cs as [|c0 cs0 _] using rev_ind; [simpl in Hj; lia|].
  rewrite length_app in Hj. simpl in Hj.
  assert (j = length cs0) as -> by lia.
  rewrite <- app_assoc in Hgroup.
  rewrite lookup_app_r, Nat.sub_diag in Hgroup by lia. simpl in Hgroup.
  injection Hgroup as ->. by exists cs0.
Qed.

(** A pass whose membership calls each follow the creation of their group
    leaves no membership in a group that the graph does not have. *)
Lemma group_first_no_dangling cs g :
  group_first cs -> no_dangling g -> no_dangling (apply_calls cs g).
Proof.
  induction cs as [|c cs IH] using rev_ind; intros Hfirst Hg; [done|].
  specialize (IH (group_first_init _ _ Hfirst) Hg).
  rewrite apply_calls_app, apply_calls_cons. simpl.
  destruct c as [n|p ch|h [n|]|e k v]; intros h' n' Hin; simpl in *.
  - apply elem_of_union; right. by apply (IH h').
  - by apply (IH h').
  - apply elem_of_union in Hin as [Hin|Hin]; [|by apply (IH h')].
    apply elem_of_singleton in Hin. injection Hin as -> ->.
    destruct (group_first_last _ _ _ Hfirst) as (cs0 & ->).
    rewrite apply_calls_app, apply_calls_cons. simpl.
    apply elem_of_union; left. by apply elem_of_singleton.
  - by apply (IH h').
  - by apply (IH h').
Qed.

(** Whatever the documents, a pass of the builder over the empty graph
    leaves no dangling membership. *)
Lemma create_inventory_no_dangling docs scm :
  no_dangling (apply_calls (create_inventory docs scm) empty_graph).
Proof.
  apply group_first_no_dangling; [apply group_first_create_inventory|].
  intros h n Hin. simpl in Hin. by apply elem_of_empty in Hin.
Qed.

End Graph.

(** C7.  For every sequence of group records, the calls that [_add_group]
    issues for the sequence are applied to the empty inventory graph, whose
    operations are idempotent; applying the calls of the same sequence a
    second time leaves the group set, the set of parent/child edges and the
    variable map as they were (and with them the whole graph). *)
Theorem group_records_idempotent (records : list TerraformModuleResource) :
  let calls := flat_map _add_group records in
  let once := apply_calls calls empty_graph in
  let twice := apply_calls calls once in
  (forall c g, apply_call c (apply_call c g) = apply_call c g) /\
  ig_groups twice = ig_groups once /\
  ig_edges twice = ig_edges once /\
  ig_vars twice = ig_vars once /\
  twice = once.
Proof.
  intros calls once twice.
  assert (Htwice : twice = once) by apply apply_calls_twice.
  split; [apply apply_call_idempotent|]. by rewrite Htwice.
Qed.

(* ===================================================================== *)
(* Properties of the monad                                               *)
(* ===================================================================== *)

Section Monad.

Context {W : Type}.

Lemma bind_run {A B} (m : M W A) (f : A -> M W B) (w : W) :
  (m ≫= f) w
  = match m w with
    | (Return a, w1, t1) =>
        match f a w1 with (r, w2, t2) => (r, w2, t1 ++ t2) end
    | (Raise e, w1, t1) => (Raise e, w1, t1)
    end.
Proof. reflexivity. Qed.

Lemma inventory_calls_app (t1 t2 : list event) :
  inventory_calls (t1 ++ t2) = inventory_calls t1 ++ inventory_calls t2.
Proof. apply omap_app. Qed.

Lemma inventory_calls_inventory (cs : list inv_call) :
  inventory_calls (map ev_inventory cs) = cs.
Proof. induction cs as [|c cs IH]; simpl; [done|]. by rewrite IH. Qed.

Lemma selects_app (t1 t2 : list event) :
  selects (t1 ++ t2) = selects t1 ++ selects t2.
Proof. apply omap_app. Qed.

Lemma quiet_ret {A} (a : A) : quiet (mret a : M W A).
Proof. by intros w. Qed.

Lemma quiet_raise {A} (e : exn) : quiet (raise e : M W A).
Proof. by intros w. Qed.

Lemma quiet_bind {A B} (m : M W A) (f : A -> M W B) :
  quiet m -> (forall a, quiet (f a)) -> quiet (m ≫= f).
Proof.
  intros Hm Hf w. rewrite bind_run. specialize (Hm w).
  destruct (m w) as [[[a|e] w1] t1]; simpl in *; [|done].
  specialize (Hf a w1). destruct (f a w1) as [[r w2] t2]; simpl in *.
  by rewrite inventory_calls_app, Hm, Hf.
Qed.

Lemma quiet_try {A} (m : M W A) (handler : string -> M W A) :
  quiet m -> (forall msg, quiet (handler msg)) -> quiet (try_except_warning m handler).
Proof.
  intros Hm Hh w. unfold try_except_warning. specialize (Hm w).
  destruct (m w) as [[[a|[msg|msg|msg]] w1] t1]; simpl in *; try done.
  specialize (Hh msg w1). destruct (handler msg w1) as [[r w2] t2]; simpl in *.
  by rewrite inventory_calls_app, Hm, Hh.
Qed.

Lemma quiet_command {A} (ev : event) (c : W -> outcome A * W) :
  inventory_calls [ev] = [] -> quiet (command ev c).
Proof. intros Hev w. unfold command. by destruct (c w) as [r w1]. Qed.

End Monad.

(* ===================================================================== *)
(* Properties of parse                                                   *)
(* ===================================================================== *)

Section Run.

Context {World : Type}.
Variable getcwd : string.
Variable validate_bin_path : string -> outcome unit.
Variable get_bin_path : outcome string.
Variable workspace_list :
  TerraformCommands -> World -> outcome TerraformWorkspaceContext * World.
Variable workspace_select :
  TerraformCommands -> string -> World -> outcome unit * World.
Variable show :
  TerraformCommands -> string -> World -> outcome (option TerraformShow) * World.

Local Abbreviation get_ctx := (get_workspace_ctx workspace_list).
Local Abbreviation select := (select_workspace workspace_select).
Local Abbreviation retrieve := (retrieve_state show).
Local Abbreviation use_ws := (use_workspace workspace_select show).
Local Abbreviation body := (parse_path workspace_list workspace_select show).
Local Abbreviation loop := (parse_paths workspace_list workspace_select show).
Local Abbreviation binary := (resolve_binary validate_bin_path get_bin_path).
Local Abbreviation run :=
  (parse getcwd validate_bin_path get_bin_path
         workspace_list workspace_select show).

Implicit Types (terraform : TerraformCommands) (w : World).
Implicit Types (docs : list (option TerraformShow)) (t : list event).

(* No step of the loop calls the inventory *)

Lemma quiet_get_ctx terraform : quiet (get_ctx terraform).
Proof.
  apply quiet_try; [by apply quiet_command|]. intros _. apply quiet_ret.
Qed.

Lemma quiet_select terraform workspace ctx : quiet (select terraform workspace ctx).
Proof.
  unfold select_workspace. destruct (negb _); [by apply quiet_command|apply quiet_ret].
Qed.

Lemma quiet_retrieve terraform state_file : quiet (retrieve terraform state_file).
Proof.
  apply quiet_try; [by apply quiet_command|]. intros msg. apply quiet_raise.
Qed.

Lemma quiet_use_ws terraform state_file workspace ctx :
  quiet (use_ws terraform state_file workspace ctx).
Proof.
  unfold use_workspace. destruct (_ && _); [apply quiet_raise|].
  apply quiet_bind; [apply quiet_select|]. intros _. apply quiet_retrieve.
Qed.

Lemma quiet_body bin state_file workspace path :
  quiet (body bin state_file workspace path).
Proof.
  apply quiet_bind; [apply quiet_get_ctx|]. intros ctx. apply quiet_use_ws.
Qed.

Lemma quiet_loop bin state_file workspace paths docs :
  quiet (loop bin state_file workspace paths docs).
Proof.
  revert docs. induction paths as [|path paths IH]; intros docs; simpl.
  - apply quiet_ret.
  - apply quiet_bind; [apply quiet_body|]. intros state. apply IH.
Qed.

(* The loop over a list of paths, cut in two *)

Lemma loop_app bin state_file workspace pre post docs w :
  loop bin state_file workspace (pre ++ post) docs w
  = (loop bin state_file workspace pre docs
       ≫= loop bin state_file workspace post) w.
Proof.
  revert docs w. induction pre as [|path pre IH]; intros docs w.
  - rewrite bind_run. simpl.
    by destruct (loop bin state_file workspace post docs w) as [[r w2] t2].
  - simpl. rewrite !bind_run.
    destruct (body bin state_file workspace path w) as [[[state|e] w1] t1]; [|done].
    rewrite IH, !bind_run.
    destruct (loop bin state_file workspace pre (docs ++ [state]) w1)
      as [[[docs1|e] w2] t2]; [|done].
    destruct (loop bin state_file workspace post docs1 w2) as [[r w3] t3].
    by rewrite app_assoc.
Qed.

(** One entry of [state_content] per path, in the order of the paths. *)
Lemma loop_length bin state_file workspace paths docs w docs' w' t :
  loop bin state_file workspace paths docs w = (Return docs', w', t) ->
  length docs' = length docs + length paths.
Proof.
  revert docs w t. induction paths as [|path paths IH]; intros docs w t; simpl.
  - intros [= <- _ _]. lia.
  - rewrite bind_run.
    destruct (body bin state_file workspace path w) as [[[state|e] w1] t1]; [|done].
    destruct (loop bin state_file workspace paths (docs ++ [state]) w1)
      as [[r w2] t2] eqn:Hrest.
    intros [= -> -> _]. apply IH in Hrest. rewrite length_app in Hrest.
    simpl in *. lia.
Qed.

(** [parse], once the binary is found. *)
Lemma run_with_binary cfg bin w :
  binary cfg = Return bin ->
  run cfg w
  = match loop bin (default "" (cfg_state_file cfg))
               (default "default" (cfg_workspace cfg))
               (project_paths getcwd cfg) [] w with
    | (Return docs, w1, t1) =>
        (Return tt, w1,
         t1 ++ map ev_inventory
                (create_inventory docs (default true (cfg_search_child_modules cfg))))
    | (Raise e, w1, t1) => (Raise e, w1, t1)
    end.
Proof.
  intros Hbin. unfold parse. rewrite bind_run. unfold lift. rewrite Hbin.
  rewrite bind_run.
  destruct (loop _ _ _ _ _ _) as [[[docs|e] w1] t1]; [|done].
  destruct docs as [|d docs]; simpl; [|done].
  by rewrite app_nil_r.
Qed.

Lemma run_without_binary cfg e w :
  binary cfg = Raise e -> run cfg w = (Raise e, w, []).
Proof. intros Hbin. unfold parse. rewrite bind_run. unfold lift. by rewrite Hbin. Qed.

(* The steps of the loop body *)

Lemma get_ctx_run terraform w :
  get_ctx terraform w
  = match workspace_list terraform w with
    | (Raise (TerraformWarning _), w1) =>
        (Return {| current := "default"; all := [] |}, w1,
         [ev_workspace_list terraform])
    | (r, w1) => (r, w1, [ev_workspace_list terraform])
    end.
Proof.
  unfold get_workspace_ctx, try_except_warning, command.
  by destruct (workspace_list terraform w) as [[ctx|[msg|msg|msg]] w1].
Qed.

Lemma retrieve_run terraform state_file w :
  retrieve terraform state_file w
  = match show terraform state_file w with
    | (Raise (TerraformWarning message), w1) =>
        (Raise (TerraformError message), w1, [ev_show terraform state_file])
    | (r, w1) => (r, w1, [ev_show terraform state_file])
    end.
Proof.
  unfold retrieve_state, try_except_warning, command.
  by destruct (show terraform state_file w) as [[state|[msg|msg|msg]] w1].
Qed.

Lemma str_in_spec (x : string) (l : list string) : str_in x l = true <-> x ∈ l.
Proof.
  unfold str_in. rewrite existsb_exists. split.
  - intros (y & Hy & Heq). apply String.eqb_eq in Heq as ->.
    by apply list_elem_of_In.
  - intros Hx. exists x. split; [by apply list_elem_of_In|apply String.eqb_refl].
Qed.

(** The test of line 246. *)
Lemma unknown_workspace_spec (workspace : string) (ctx : TerraformWorkspaceContext) :
  (negb (str_in workspace (all ctx)) && negb (String.eqb workspace (current ctx)))
  = true
  <-> (workspace ∉ all ctx) /\ workspace ≠ current ctx.
Proof.
  rewrite andb_true_iff, !negb_true_iff.
  rewrite <- !not_true_iff_false, str_in_spec, String.eqb_eq. done.
Qed.

(** C3.  A run that fails, at whatever path and for whatever reason,
    has issued no call on the inventory.  A run that succeeds has first
    processed every path, one entry of [state_content] per path, with no
    call on the inventory during the loop; then the accumulated documents
    go through [create_inventory] in one pass, and the inventory calls of
    the run are exactly the calls of that pass. *)
Theorem no_partial_inventory (cfg : Config) w (r : outcome unit) w' t :
  run cfg w = (r, w', t) ->
  match r with
  | Raise _ => inventory_calls t = []
  | Return _ =>
      exists bin docs cmds,
        binary cfg = Return bin /\
        loop bin (default "" (cfg_state_file cfg))
             (default "default" (cfg_workspace cfg))
             (project_paths getcwd cfg) [] w = (Return docs, w', cmds) /\
        length docs = length (project_paths getcwd cfg) /\
        inventory_calls cmds = [] /\
        t = cmds ++ map ev_inventory
                      (create_inventory docs
                         (default true (cfg_search_child_modules cfg))) /\
        inventory_calls t
        = create_inventory docs (default true (cfg_search_child_modules cfg))
  end.
Proof.
  destruct (binary cfg) as [bin|e] eqn:Hbin.
  - rewrite (run_with_binary cfg bin w Hbin).
    pose proof (quiet_loop bin (default "" (cfg_state_file cfg))
                  (default "default" (cfg_workspace cfg))
                  (project_paths getcwd cfg) [] w) as Hquiet.
    destruct (loop _ _ _ _ _ _) as [[[docs|e] w1] t1] eqn:Hloop; simpl in Hquiet.
    + intros [= <- <- <-]. exists bin, docs, t1.
      repeat split; try done.
      * by apply loop_length in Hloop.
      * by rewrite inventory_calls_app, Hquiet, inventory_calls_inventory.
    + by intros [= <- <- <-].
  - rewrite (run_without_binary cfg e w Hbin). by intros [= <- <- <-].
Qed.

(** C4.  When the loop reaches a path whose workspace context has the
    requested workspace neither in its known set nor as its current
    workspace, the run raises TerraformError with the message
    "Workspace <workspace> does not exist in <path>", right after the
    workspaces of that path were listed: no workspace is selected, no state
    is read, no later path is visited, and the inventory is not called. *)
Theorem unknown_workspace_aborts (cfg : Config) (bin : string)
        (pre post : list string) (path : string) w docs w1 t1
        (ctx : TerraformWorkspaceContext) w2 t2 :
  let workspace := default "default" (cfg_workspace cfg) in
  let state_file := default "" (cfg_state_file cfg) in
  let terraform := {| project_path := path; binary_path := bin |} in
  binary cfg = Return bin ->
  project_paths getcwd cfg = pre ++ path :: post ->
  loop bin state_file workspace pre [] w = (Return docs, w1, t1) ->
  get_ctx terraform w1 = (Return ctx, w2, t2) ->
  workspace ∉ all ctx ->
  workspace ≠ current ctx ->
  run cfg w
  = (Raise (TerraformError
              ("Workspace " +:+ workspace +:+ " does not exist in " +:+ path)),
     w2, t1 ++ [ev_workspace_list terraform]) /\
  inventory_calls (t1 ++ [ev_workspace_list terraform]) = [].
Proof.
  intros workspace state_file terraform Hbin Hpaths Hpre Hctx Hall Hcur.
  assert (Ht2 : t2 = [ev_workspace_list terraform]).
  { rewrite get_ctx_run in Hctx.
    destruct (workspace_list terraform w1) as [[c|[msg|msg|msg]] w3];
      by injection Hctx as _ _ <-. }
  subst t2.
  assert (Hrun : run cfg w
    = (Raise (TerraformError
                ("Workspace " +:+ workspace +:+ " does not exist in " +:+ path)),
       w2, t1 ++ [ev_workspace_list terraform])).
  { rewrite (run_with_binary cfg bin w Hbin), Hpaths, loop_app, bind_run.
    fold workspace state_file. rewrite Hpre. simpl. rewrite bind_run.
    unfold parse_path at 1. rewrite bind_run. fold terraform. rewrite Hctx.
    unfold use_workspace.
    destruct (unknown_workspace_spec workspace ctx) as [_ ->]; [|done].
    reflexivity. }
  split; [exact Hrun|].
  pose proof (quiet_loop bin state_file workspace pre [] w) as Hquiet.
  rewrite Hpre in Hquiet. simpl in Hquiet.
  by rewrite inventory_calls_app, Hquiet.
Qed.

(** C8.  When listing the workspaces of a path reports a warning, the run
    does not fail there: the workspace context is current = "default" with
    no known workspace, and the body of the loop goes on with that context.
    For the requested workspace "default" it goes on to read the state,
    without selecting a workspace. *)
Theorem workspace_list_warning_defaults
        (bin state_file workspace path : string) w (msg : string) w1 :
  let terraform := {| project_path := path; binary_path := bin |} in
  let default_ctx := {| current := "default"; all := [] |} in
  workspace_list terraform w = (Raise (TerraformWarning msg), w1) ->
  get_ctx terraform w
  = (Return default_ctx, w1, [ev_workspace_list terraform]) /\
  body bin state_file workspace path w
  = (match use_ws terraform state_file workspace default_ctx w1 with
     | (r, w2, t2) => (r, w2, ev_workspace_list terraform :: t2)
     end) /\
  (workspace = "default" ->
   body bin state_file workspace path w
   = (match retrieve terraform state_file w1 with
      | (r, w2, t2) => (r, w2, ev_workspace_list terraform :: t2)
      end)).
Proof.
  intros terraform default_ctx Hlist.
  assert (Hctx : get_ctx terraform w
                 = (Return default_ctx, w1, [ev_workspace_list terraform])).
  { by rewrite get_ctx_run, Hlist. }
  assert (Hbody : body bin state_file workspace path w
    = (match use_ws terraform state_file workspace default_ctx w1 with
       | (r, w2, t2) => (r, w2, ev_workspace_list terraform :: t2)
       end)).
  { unfold parse_path. rewrite bind_run. fold terraform. by rewrite Hctx. }
  split; [exact Hctx|split; [exact Hbody|]].
  intros ->. rewrite Hbody. unfold use_workspace, select_workspace. simpl.
  rewrite bind_run. simpl.
  by destruct (retrieve terraform state_file w1) as [[r w2] t2].
Qed.

Lemma selects_retrieve terraform state_file w :
  selects (retrieve terraform state_file w).2 = [].
Proof.
  rewrite retrieve_run.
  by destruct (show terraform state_file w) as [[state|[msg|msg|msg]] w1].
Qed.

Lemma get_ctx_trace terraform w r w1 t1 :
  get_ctx terraform w = (r, w1, t1) -> t1 = [ev_workspace_list terraform].
Proof.
  rewrite get_ctx_run.
  destruct (workspace_list terraform w) as [[c|[msg|msg|msg]] w2];
    by intros [= _ _ <-].
Qed.

(** C9.  For a path whose workspace context is [ctx], the body of the loop
    selects a workspace exactly when the requested workspace passed the
    validation (it is known or current) and is not the current one; it then
    selects the requested workspace, once.  When the requested workspace is
    the current one, nothing is selected. *)
Theorem select_iff_valid_and_differs
        (bin state_file workspace path : string) w
        (ctx : TerraformWorkspaceContext) w1 t1 :
  let terraform := {| project_path := path; binary_path := bin |} in
  get_ctx terraform w = (Return ctx, w1, t1) ->
  selects (body bin state_file workspace path w).2
  = if decide ((workspace ∈ all ctx \/ workspace = current ctx)
               /\ workspace ≠ current ctx)
    then [(terraform, workspace)] else [].
Proof.
  intros terraform Hctx.
  pose proof (get_ctx_trace _ _ _ _ _ Hctx) as ->.
  unfold parse_path. rewrite bind_run. fold terraform. rewrite Hctx.
  unfold use_workspace.
  destruct (negb (str_in workspace (all ctx))
            && negb (String.eqb workspace (current ctx))) eqn:Hunknown.
  - apply unknown_workspace_spec in Hunknown as [Hall Hcur].
    simpl. rewrite decide_False; [done|]. intros [[?|?] _]; done.
  - assert (Hvalid : workspace ∈ all ctx \/ workspace = current ctx).
    { destruct (decide (workspace ∈ all ctx)) as [|Hall]; [by left|].
      destruct (decide (workspace = current ctx)) as [|Hcur]; [by right|].
      destruct (unknown_workspace_spec workspace ctx) as [_ Htrue].
      rewrite Htrue in Hunknown; done. }
    rewrite bind_run. unfold select_workspace.
    pose proof (selects_retrieve terraform state_file) as Hretrieve.
    destruct (String.eqb_spec (current ctx) workspace) as [Heq|Hne]; simpl.
    + specialize (Hretrieve w1).
      destruct (retrieve terraform state_file w1) as [[r w2] t2]; simpl in *.
      rewrite Hretrieve. rewrite decide_False; [done|]. intros [_ ?]; done.
    + unfold command.
      destruct (workspace_select terraform workspace w1) as [[[]|e] w2]; simpl.
      * specialize (Hretrieve w2).
        destruct (retrieve terraform state_file w2) as [[r w3] t3]; simpl in *.
        rewrite Hretrieve. rewrite decide_True; [done|]. split; [done|congruence].
      * rewrite decide_True; [done|]. split; [done|congruence].
Qed.

(** C1, as the code has it.  When the state retrieval of a path reports a
    warning, the run does not skip the path: it raises TerraformError
    with the message of the warning, right after that command, and the
    inventory is not called. *)
Theorem state_warning_aborts (cfg : Config) (bin : string)
        (pre post : list string) (path : string) w docs w1 t1
        (ctx : TerraformWorkspaceContext) w2 t2 w3 t3 (msg : string) w4 :
  let workspace := default "default" (cfg_workspace cfg) in
  let state_file := default "" (cfg_state_file cfg) in
  let terraform := {| project_path := path; binary_path := bin |} in
  binary cfg = Return bin ->
  project_paths getcwd cfg = pre ++ path :: post ->
  loop bin state_file workspace pre [] w = (Return docs, w1, t1) ->
  get_ctx terraform w1 = (Return ctx, w2, t2) ->
  workspace ∈ all ctx \/ workspace = current ctx ->
  select terraform workspace ctx w2 = (Return tt, w3, t3) ->
  show terraform state_file w3 = (Raise (TerraformWarning msg), w4) ->
  run cfg w
  = (Raise (TerraformError msg), w4,
     t1 ++ t2 ++ t3 ++ [ev_show terraform state_file]) /\
  inventory_calls (t1 ++ t2 ++ t3 ++ [ev_show terraform state_file]) = [].
Proof.
  intros workspace state_file terraform Hbin Hpaths Hpre Hctx Hvalid Hsel Hshow.
  assert (Hrun : run cfg w
    = (Raise (TerraformError msg), w4,
       t1 ++ t2 ++ t3 ++ [ev_show terraform state_file])).
  { rewrite (run_with_binary cfg bin w Hbin), Hpaths, loop_app, bind_run.
    fold workspace state_file. rewrite Hpre. simpl. rewrite bind_run.
    unfold parse_path at 1. rewrite bind_run. fold terraform. rewrite Hctx.
    unfold use_workspace.
    destruct (negb (str_in workspace (all ctx))
              && negb (String.eqb workspace (current ctx))) eqn:Hunknown.
    { apply unknown_workspace_spec in Hunknown as [Hall Hcur].
      destruct Hvalid; done. }
    rewrite bind_run, Hsel, retrieve_run, Hshow. reflexivity. }
  split; [exact Hrun|].
  pose proof (quiet_loop bin state_file workspace
                (project_paths getcwd cfg) [] w) as Hquiet.
  rewrite (run_with_binary cfg bin w Hbin) in Hrun.
  fold workspace state_file in Hrun.
  destruct (loop bin state_file workspace (project_paths getcwd cfg) [] w)
    as [[[ds|e] w5] t5]; [done|].
  injection Hrun as _ _ <-. exact Hquiet.
Qed.

(* What is handled and what goes through *)

(** X7.  When the terraform binary cannot be resolved (the given
    binary_path does not validate, or none is given and none is found), the
    run raises that error before anything else: no command is run, the
    inventory is not called, whatever the paths. *)
Theorem binary_failure_before_any_command (cfg : Config) (e : exn) w :
  binary cfg = Raise e -> run cfg w = (Raise e, w, []).
Proof. apply run_without_binary. Qed.

(** X8.  With an empty list of project paths the run succeeds and does
    nothing: no command, and [create_inventory] is not entered. *)
Theorem empty_project_list_does_nothing (cfg : Config) (bin : string) w :
  binary cfg = Return bin ->
  project_paths getcwd cfg = [] ->
  run cfg w = (Return tt, w, []).
Proof. intros Hbin Hpaths. by rewrite (run_with_binary cfg bin w Hbin), Hpaths. Qed.

(** X9.  The first path that fails ends the run with its exception,
    unchanged: the trace is that of the paths before it followed by its own,
    and the paths after it are never visited. *)
Theorem first_failure_aborts (cfg : Config) (bin : string)
        (pre post : list string) (path : string) w docs w1 t1 (e : exn) w2 t2 :
  let workspace := default "default" (cfg_workspace cfg) in
  let state_file := default "" (cfg_state_file cfg) in
  binary cfg = Return bin ->
  project_paths getcwd cfg = pre ++ path :: post ->
  loop bin state_file workspace pre [] w = (Return docs, w1, t1) ->
  body bin state_file workspace path w1 = (Raise e, w2, t2) ->
  run cfg w = (Raise e, w2, t1 ++ t2).
Proof.
  intros workspace state_file Hbin Hpaths Hpre Hbody.
  rewrite (run_with_binary cfg bin w Hbin), Hpaths, loop_app, bind_run.
  fold workspace state_file. rewrite Hpre. simpl. rewrite bind_run.
  by rewrite Hbody.
Qed.

(** X10.  A select that fails is fatal for the path, whatever it raises,
    a warning included: the exception leaves the body of the loop as it is,
    and the state of the path is not read. *)
Theorem select_failure_is_fatal
        (bin state_file workspace path : string) w
        (ctx : TerraformWorkspaceContext) w1 t1 (e : exn) w2 :
  let terraform := {| project_path := path; binary_path := bin |} in
  get_ctx terraform w = (Return ctx, w1, t1) ->
  workspace ∈ all ctx ->
  workspace ≠ current ctx ->
  workspace_select terraform workspace w1 = (Raise e, w2) ->
  body bin state_file workspace path w
  = (Raise e, w2,
     [ev_workspace_list terraform; ev_workspace_select terraform workspace]).
Proof.
  intros terraform Hctx Hall Hcur Hsel.
  pose proof (get_ctx_trace _ _ _ _ _ Hctx) as ->.
  unfold parse_path. rewrite bind_run. fold terraform. rewrite Hctx.
  unfold use_workspace.
  destruct (negb (str_in workspace (all ctx))
            && negb (String.eqb workspace (current ctx))) eqn:Hunknown.
  { by apply unknown_workspace_spec in Hunknown as [? _]. }
  rewrite bind_run. unfold select_workspace.
  destruct (String.eqb_spec (current ctx) workspace) as [Heq|Hne]; [done|].
  simpl. unfold command. by rewrite Hsel.
Qed.

(** X11.  An exception of the state retrieval that is not a warning leaves
    the body of the loop unchanged, right after the show command. *)
Theorem hard_show_error_propagates
        (bin state_file workspace path : string) w
        (ctx : TerraformWorkspaceContext) w1 t1 w2 t2 (e : exn) w3 :
  let terraform := {| project_path := path; binary_path := bin |} in
  get_ctx terraform w = (Return ctx, w1, t1) ->
  workspace ∈ all ctx \/ workspace = current ctx ->
  select terraform workspace ctx w1 = (Return tt, w2, t2) ->
  show terraform state_file w2 = (Raise e, w3) ->
  (forall message, e ≠ TerraformWarning message) ->
  body bin state_file workspace path w
  = (Raise e, w3, t1 ++ t2 ++ [ev_show terraform state_file]).
Proof.
  intros terraform Hctx Hvalid Hsel Hshow Hhard.
  unfold parse_path. rewrite bind_run. fold terraform. rewrite Hctx.
  unfold use_workspace.
  destruct (negb (str_in workspace (all ctx))
            && negb (String.eqb workspace (current ctx))) eqn:Hunknown.
  { apply unknown_workspace_spec in Hunknown as [? ?]. by destruct Hvalid. }
  rewrite bind_run, Hsel, retrieve_run, Hshow.
  destruct e as [message|message|message]; [by destruct (Hhard message)|done|done].
Qed.

(** X12.  An exception of the workspace listing that is not a warning
    leaves the body of the loop unchanged: nothing is validated, selected or
    read for the path. *)
Theorem hard_listing_error_propagates
        (bin state_file workspace path : string) w (e : exn) w1 :
  let terraform := {| project_path := path; binary_path := bin |} in
  workspace_list terraform w = (Raise e, w1) ->
  (forall message, e ≠ TerraformWarning message) ->
  body bin state_file workspace path w
  = (Raise e, w1, [ev_workspace_list terraform]).
Proof.
  intros terraform Hlist Hhard.
  unfold parse_path. rewrite bind_run. fold terraform.
  rewrite get_ctx_run, Hlist.
  destruct e as [message|message|message]; [by destruct (Hhard message)|done|done].
Qed.

(** X13.  When the workspace listing reports a warning and the requested
    workspace is not "default", the path fails the validation against the
    default context: TerraformError "Workspace <workspace> does not
    exist in <path>", with nothing selected or read. *)
Theorem listing_warning_named_workspace_fails
        (bin state_file workspace path : string) w (msg : string) w1 :
  let terraform := {| project_path := path; binary_path := bin |} in
  workspace_list terraform w = (Raise (TerraformWarning msg), w1) ->
  workspace ≠ "default" ->
  body bin state_file workspace path w
  = (Raise (TerraformError
              ("Workspace " +:+ workspace +:+ " does not exist in " +:+ path)),
     w1, [ev_workspace_list terraform]).
Proof.
  intros terraform Hlist Hne.
  unfold parse_path. rewrite bind_run. fold terraform.
  rewrite get_ctx_run, Hlist. unfold use_workspace.
  destruct (unknown_workspace_spec workspace {| current := "default"; all := [] |})
    as [_ ->]; [done|].
  split; [by intros ?%elem_of_nil|done].
Qed.

(* Which commands a run issues *)

Lemma listed_app t1 t2 : listed (t1 ++ t2) = listed t1 ++ listed t2.
Proof. apply omap_app. Qed.

Lemma shown_app t1 t2 : shown (t1 ++ t2) = shown t1 ++ shown t2.
Proof. apply omap_app. Qed.

Lemma listed_inventory (cs : list inv_call) : listed (map ev_inventory cs) = [].
Proof. by induction cs. Qed.

Lemma shown_inventory (cs : list inv_call) : shown (map ev_inventory cs) = [].
Proof. by induction cs. Qed.

(** The body of the loop lists the workspaces of its path once, and reads
    its state at most once; when it returns, it has read it. *)
Lemma body_commands (bin state_file workspace path : string) w
      (r : outcome (option TerraformShow)) w' t :
  let terraform := {| project_path := path; binary_path := bin |} in
  body bin state_file workspace path w = (r, w', t) ->
  listed t = [terraform] /\
  shown t `prefix_of` [(terraform, state_file)] /\
  (forall state, r = Return state -> shown t = [(terraform, state_file)]).
Proof.
  intros terraform. unfold parse_path. rewrite bind_run. fold terraform.
  rewrite get_ctx_run.
  assert (Hrest : forall ctx w1,
    match use_ws terraform state_file workspace ctx w1 with
    | (r, w2, t2) => (r, w2, [ev_workspace_list terraform] ++ t2)
    end = (r, w', t) ->
    listed t = [terraform] /\
    shown t `prefix_of` [(terraform, state_file)] /\
    (forall state, r = Return state -> shown t = [(terraform, state_file)])).
  { intros ctx w1. unfold use_workspace.
    destruct (_ && _).
    { intros [= <- <- <-]. simpl. split; [done|]. split; [apply prefix_nil|done]. }
    rewrite bind_run. unfold select_workspace, command.
    destruct (negb _); simpl.
    - destruct (workspace_select terraform workspace w1) as [[[]|e] w2].
      + rewrite retrieve_run.
        destruct (show terraform state_file w2) as [[state|[m|m|m]] w3];
          intros [= <- <- <-]; simpl; split; try done; split; done.
      + intros [= <- <- <-]. simpl. split; [done|]. split; [apply prefix_nil|done].
    - rewrite retrieve_run.
      destruct (show terraform state_file w1) as [[state|[m|m|m]] w3];
        intros [= <- <- <-]; simpl; split; try done; split; done. }
  destruct (workspace_list terraform w) as [[ctx|[m|m|m]] w1].
  - apply Hrest.
  - apply Hrest.
  - intros [= <- <- <-]. simpl. split; [done|]. split; [apply prefix_nil|done].
  - intros [= <- <- <-]. simpl. split; [done|]. split; [apply prefix_nil|done].
Qed.

Lemma loop_commands (bin state_file workspace : string) (paths : list string)
      docs w (r : outcome (list (option TerraformShow))) w' t :
  let terraform path := {| project_path := path; binary_path := bin |} in
  loop bin state_file workspace paths docs w = (r, w', t) ->
  listed t `prefix_of` map terraform paths /\
  shown t `prefix_of` map (fun path => (terraform path, state_file)) paths /\
  (forall docs', r = Return docs' ->
     listed t = map terraform paths /\
     shown t = map (fun path => (terraform path, state_file)) paths).
Proof.
  intros terraform. revert docs w r w' t.
  induction paths as [|path paths IH]; intros docs w r w' t; simpl.
  - intros [= <- <- <-]. done.
  - rewrite bind_run.
    destruct (body bin state_file workspace path w) as [[[state|e] w1] t1] eqn:Hbody;
      apply body_commands in Hbody as (Hlisted & Hprefix & Hshown).
    + specialize (Hshown state eq_refl).
      destruct (loop bin state_file workspace paths (docs ++ [state]) w1)
        as [[r2 w2] t2] eqn:Hloop.
      apply IH in Hloop as (IHlisted & IHshown & IHall).
      intros [= <- <- <-]. rewrite listed_app, shown_app, Hlisted, Hshown. simpl.
      split; [by apply prefix_cons|]. split; [by apply prefix_cons|].
      intros docs' Hr. destruct (IHall docs' Hr) as [-> ->]. done.
    + intros [= <- <- <-]. rewrite Hlisted. split; [|split; [|done]].
      * apply (prefix_app_r [terraform path] [terraform path]). done.
      * etrans; [exact Hprefix|].
        apply (prefix_app_r [(terraform path, state_file)]
                 [(terraform path, state_file)]). done.
Qed.

(** X14.  A run visits the project paths in the order of the configuration
    and runs each command once per path: the workspace listings of its trace
    and the state retrievals of its trace are each a prefix of the list of
    paths, and the whole list when the run succeeds.  Nothing is tried
    twice. *)
Theorem paths_visited_in_order (cfg : Config) (bin : string) w
        (r : outcome unit) w' t :
  let state_file := default "" (cfg_state_file cfg) in
  let terraform path := {| project_path := path; binary_path := bin |} in
  binary cfg = Return bin ->
  run cfg w = (r, w', t) ->
  listed t `prefix_of` map terraform (project_paths getcwd cfg) /\
  shown t `prefix_of`
    map (fun path => (terraform path, state_file)) (project_paths getcwd cfg) /\
  (r = Return tt ->
   listed t = map terraform (project_paths getcwd cfg) /\
   shown t = map (fun path => (terraform path, state_file))
                 (project_paths getcwd cfg)).
Proof.
  intros state_file terraform Hbin. rewrite (run_with_binary cfg bin w Hbin).
  fold state_file.
  destruct (loop bin state_file (default "default" (cfg_workspace cfg))
              (project_paths getcwd cfg) [] w) as [[[docs|e] w1] t1] eqn:Hloop;
    apply loop_commands in Hloop as (Hlisted & Hshown & Hall);
    intros [= <- <- <-].
  - destruct (Hall docs eq_refl) as [Hl Hs].
    rewrite listed_app, shown_app, listed_inventory, shown_inventory, !app_nil_r.
    fold terraform. by rewrite Hl, Hs.
  - fold terraform. split; [done|]. split; [done|]. intros [=].
Qed.

End Run.

(* ===================================================================== *)
(* Runs on concrete projects                                             *)
(* ===================================================================== *)

Lemma no_partial_inventory_witness :
  exists w' t,
    Sim.parse (Sim.cfg_paths ["a"; "b"] None) Sim.world_hard_failure
    = (Raise (TerraformError "Error: state is corrupt"), w', t) /\
    inventory_calls t = [].
Proof.
  eexists _, _. split; [vm_compute; reflexivity|].
  exact (no_partial_inventory "." (fun _ => Return tt) (Return "terraform")
           Sim.workspace_list Sim.workspace_select Sim.show
           (Sim.cfg_paths ["a"; "b"] None) Sim.world_hard_failure _ _ _ eq_refl).
Defined.

Lemma unknown_workspace_aborts_witness :
  Sim.parse (Sim.cfg_paths ["a"; "b"; "c"] (Some "staging")) Sim.world_staging
  = (Raise (TerraformError "Workspace staging does not exist in b"),
     Sim.world_staging,
     [ev_workspace_list (Sim.terraform_at "a"); ev_show (Sim.terraform_at "a") "";
      ev_workspace_list (Sim.terraform_at "b")]).
Proof.
  edestruct (unknown_workspace_aborts "." (fun _ => Return tt) (Return "terraform")
               Sim.workspace_list Sim.workspace_select Sim.show
               (Sim.cfg_paths ["a"; "b"; "c"] (Some "staging")) "terraform"
               ["a"] ["c"] "b" Sim.world_staging) as [Hrun _];
    [reflexivity | reflexivity | vm_compute; reflexivity
     | vm_compute; reflexivity | | | exact Hrun].
  - simpl. intros Hin.
    repeat (apply elem_of_cons in Hin as [Hin|Hin]; [discriminate|]).
    by apply elem_of_nil in Hin.
  - discriminate.
Defined.

Lemma workspace_list_warning_defaults_witness :
  Sim.workspace_list (Sim.terraform_at "c") Sim.world_workspaces
  = (Raise (TerraformWarning "No workspaces"), Sim.world_workspaces) /\
  Sim.parse_path "default" "c" Sim.world_workspaces
  = (Return None, Sim.world_workspaces,
     [ev_workspace_list (Sim.terraform_at "c"); ev_show (Sim.terraform_at "c") ""]).
Proof.
  split; [reflexivity|].
  destruct (workspace_list_warning_defaults
              Sim.workspace_list Sim.workspace_select Sim.show
              "terraform" "" "default" "c" Sim.world_workspaces
              "No workspaces" Sim.world_workspaces eq_refl) as (_ & _ & Hbody).
  unfold Sim.parse_path. rewrite (Hbody eq_refl). reflexivity.
Defined.

Lemma select_iff_valid_and_differs_witness :
  selects (Sim.parse_path "dev" "b" Sim.world_workspaces).2
  = [(Sim.terraform_at "b", "dev")] /\
  selects (Sim.parse_path "default" "b" Sim.world_workspaces).2 = [] /\
  selects (Sim.parse_path "staging" "b" Sim.world_workspaces).2 = [].
Proof.
  unfold Sim.parse_path. split; [|split].
  - rewrite (select_iff_valid_and_differs
               Sim.workspace_list Sim.workspace_select Sim.show
               "terraform" "" "dev" "b" Sim.world_workspaces
               {| current := "default"; all := ["dev"; "default"] |}
               Sim.world_workspaces _ eq_refl).
    reflexivity.
  - rewrite (select_iff_valid_and_differs
               Sim.workspace_list Sim.workspace_select Sim.show
               "terraform" "" "default" "b" Sim.world_workspaces
               {| current := "default"; all := ["dev"; "default"] |}
               Sim.world_workspaces _ eq_refl).
    reflexivity.
  - rewrite (select_iff_valid_and_differs
               Sim.workspace_list Sim.workspace_select Sim.show
               "terraform" "" "staging" "b" Sim.world_workspaces
               {| current := "default"; all := ["dev"; "default"] |}
               Sim.world_workspaces _ eq_refl).
    reflexivity.
Defined.

Lemma state_warning_aborts_witness :
  Sim.parse (Sim.cfg_paths ["b"; "a"] None) Sim.world_warning
  = (Raise (TerraformError "No state file"), Sim.world_warning,
     [ev_workspace_list (Sim.terraform_at "b"); ev_show (Sim.terraform_at "b") "";
      ev_workspace_list (Sim.terraform_at "a"); ev_show (Sim.terraform_at "a") ""]).
Proof.
  edestruct (state_warning_aborts "." (fun _ => Return tt) (Return "terraform")
               Sim.workspace_list Sim.workspace_select Sim.show
               (Sim.cfg_paths ["b"; "a"] None) "terraform"
               ["b"] [] "a" Sim.world_warning) as [Hrun _];
    [reflexivity | reflexivity | vm_compute; reflexivity
     | vm_compute; reflexivity | | vm_compute; reflexivity
     | vm_compute; reflexivity | exact Hrun].
  by right.
Defined.

(** C1, as the specification has it, fails.  In project "a" the state
    retrieval reports a warning; project "b" declares the host web1.  The run
    over both does not complete: it raises TerraformError, selects
    nothing, never reads project "b", and web1 is not added. *)
Lemma state_warning_not_absorbed :
  Sim.show (Sim.terraform_at "a") "" Sim.world_warning
  = (Raise (TerraformWarning "No state file"), Sim.world_warning) /\
  Sim.parse (Sim.cfg_paths ["a"; "b"] None) Sim.world_warning
  = (Raise (TerraformError "No state file"), Sim.world_warning,
     [ev_workspace_list (Sim.terraform_at "a"); ev_show (Sim.terraform_at "a") ""]) /\
  ~ (exists w' t,
        Sim.parse (Sim.cfg_paths ["a"; "b"] None) Sim.world_warning
        = (Return tt, w', t) /\
        add_host "web1" None ∈ inventory_calls t).
Proof.
  split; [reflexivity|]. split; [vm_compute; reflexivity|].
  intros (w' & t & Hrun & _). vm_compute in Hrun. discriminate.
Qed.

(** C2, on the code.  The configuration leaves out search_child_modules;
    the root module of the only state document is empty and a child module
    declares the host db1.  The run adds db1, as it does with
    search_child_modules = true; with search_child_modules = false it adds
    nothing.  Line 220 takes True when the key is absent, where the
    documentation of the option says: default false. *)
Lemma omitted_search_child_modules_is_true :
  let cfg := Sim.cfg_paths ["proj"] None in
  let with_flag b :=
    {| cfg_project_path := cfg_project_path cfg;
       cfg_state_file := cfg_state_file cfg;
       cfg_search_child_modules := Some b;
       cfg_binary_path := cfg_binary_path cfg;
       cfg_workspace := cfg_workspace cfg |} in
  cfg_search_child_modules cfg = None /\
  inventory_calls (Sim.parse cfg Sim.world_child).2 = [add_host "db1" None] /\
  Sim.parse cfg Sim.world_child = Sim.parse (with_flag true) Sim.world_child /\
  inventory_calls (Sim.parse (with_flag false) Sim.world_child).2 = [].
Proof. repeat split. Qed.


(* ===================================================================== *)
(* More on the graph builder                                             *)
(* ===================================================================== *)

Section Pass.

Implicit Types (r : TerraformModuleResource) (rs : list TerraformModuleResource).
Implicit Types (docs : list (option TerraformShow)) (scm : bool).
Implicit Types (c d : inv_call) (cs seen : list inv_call).

Lemma ordered_from_mono seen seen' cs :
  (forall d, d ∈ seen -> d ∈ seen') -> ordered_from seen cs -> ordered_from seen' cs.
Proof.
  revert seen seen'. induction cs as [|c cs IH]; intros seen seen' Hsub; [done|].
  simpl. intros [Hc Hcs]. split.
  - intros alts Halts. destruct (Hc alts Halts) as (d & Hd & Hseen). eauto.
  - apply (IH (seen ++ [c])); [|done].
    intros d [Hd|Hd]%elem_of_app; apply elem_of_app; [left; auto|by right].
Qed.

Lemma ordered_from_app seen cs1 cs2 :
  ordered_from seen cs1 -> ordered_from (seen ++ cs1) cs2 ->
  ordered_from seen (cs1 ++ cs2).
Proof.
  revert seen. induction cs1 as [|c cs1 IH]; intros seen; simpl.
  - intros _. by rewrite app_nil_r.
  - intros [Hc Hcs] H2. split; [done|]. apply IH; [done|].
    by rewrite <- app_assoc.
Qed.

Lemma ordered_from_split seen cs l1 c l2 alts :
  ordered_from seen cs -> cs = l1 ++ c :: l2 -> alts ∈ requirements c ->
  exists d, d ∈ alts /\ d ∈ seen ++ l1.
Proof.
  revert seen cs. induction l1 as [|c1 l1 IH]; intros seen cs Hcs -> Halts.
  - destruct Hcs as [Hc _]. rewrite app_nil_r. by apply Hc.
  - destruct Hcs as [_ Hcs].
    destruct (IH _ _ Hcs eq_refl Halts) as (d & Hd & Hin).
    exists d. split; [done|]. by rewrite <- app_assoc in Hin.
Qed.

Lemma ordered_from_well_ordered cs : ordered_from [] cs -> well_ordered cs.
Proof.
  intros Hcs l1 c l2 alts Heq Halts.
  by apply (ordered_from_split [] cs l1 c l2 alts).
Qed.

Lemma ordered_from_edges seen (n : string) (children : list string) :
  add_group n ∈ seen ->
  ordered_from seen
    (flat_map (fun child => [add_group child; add_child n child]) children).
Proof.
  revert seen. induction children as [|ch children IH]; intros seen Hn; [done|].
  simpl. split; [by intros alts Halts%elem_of_nil|]. split.
  - intros alts Halts. apply elem_of_cons in Halts as [->|Halts].
    + exists (add_group n). split; [by apply list_elem_of_singleton|].
      apply elem_of_app; by left.
    + apply list_elem_of_singleton in Halts as ->.
      exists (add_group ch). split; [by apply list_elem_of_singleton|].
      apply elem_of_app; right. by apply list_elem_of_singleton.
  - apply IH. apply elem_of_app; left. apply elem_of_app; by left.
Qed.

Lemma ordered_from_memberships seen (n : string) (gs : list string) :
  ordered_from seen
    (flat_map (fun group => [add_group group; add_host n (Some group)]) gs).
Proof.
  revert seen. induction gs as [|g gs IH]; intros seen; [done|].
  simpl. split; [by intros alts Halts%elem_of_nil|]. split; [|apply IH].
  intros alts Halts. apply list_elem_of_singleton in Halts as ->.
  exists (add_group g). split; [by apply list_elem_of_singleton|].
  apply elem_of_app; right. by apply list_elem_of_singleton.
Qed.

Lemma ordered_from_variables seen (e : string) (vs : list (string * string)) :
  add_group e ∈ seen \/ add_host e None ∈ seen ->
  ordered_from seen (map (fun kv => set_variable e kv.1 kv.2) vs).
Proof.
  revert seen. induction vs as [|kv vs IH]; intros seen He; [done|].
  simpl. split.
  - intros alts Halts. apply list_elem_of_singleton in Halts as ->.
    destruct He as [He|He].
    + exists (add_group e). split; [|done]. apply elem_of_cons; by left.
    + exists (add_host e None). split; [|done].
      apply elem_of_cons; right. by apply list_elem_of_singleton.
  - apply IH. destruct He; [left|right]; apply elem_of_app; by left.
Qed.

Lemma ordered_from_add_group seen r : ordered_from seen (_add_group r).
Proof.
  unfold _add_group. cbv zeta. simpl app.
  split; [by intros alts Halts%elem_of_nil|].
  assert (Hn : add_group (name (from_json r)) ∈ seen ++ [add_group (name (from_json r))]).
  { apply elem_of_app; right. by apply list_elem_of_singleton. }
  apply ordered_from_app.
  - destruct (truthy _); [by apply ordered_from_edges|done].
  - destruct (truthy (variables _)); [|done].
    apply ordered_from_variables. left. apply elem_of_app; by left.
Qed.

Lemma ordered_from_add_host seen r : ordered_from seen (_add_host r).
Proof.
  unfold _add_host. cbv zeta. simpl app.
  split; [by intros alts Halts%elem_of_nil|].
  assert (Hn : add_host (name (from_json r)) None
               ∈ seen ++ [add_host (name (from_json r)) None]).
  { apply elem_of_app; right. by apply list_elem_of_singleton. }
  apply ordered_from_app.
  - destruct (truthy _); [apply ordered_from_memberships|done].
  - destruct (truthy (variables _)); [|done].
    apply ordered_from_variables. right. apply elem_of_app; by left.
Qed.

Lemma ordered_from_classify seen r : ordered_from seen (classify r).
Proof.
  unfold classify. destruct (String.eqb _ _); [apply ordered_from_add_group|].
  destruct (String.eqb _ _); [apply ordered_from_add_host|done].
Qed.

Lemma ordered_from_resources seen rs : ordered_from seen (flat_map classify rs).
Proof.
  revert seen. induction rs as [|r rs IH]; intros seen; [done|].
  simpl. apply ordered_from_app; [apply ordered_from_classify|apply IH].
Qed.

Lemma create_inventory_considered docs scm :
  create_inventory docs scm = flat_map classify (considered scm docs).
Proof.
  unfold considered.
  induction docs as [|[state|] docs IH]; simpl; [done| |done].
  by rewrite flat_map_app', IH.
Qed.

Lemma elem_of_flat_map_iff {A B} (f : A -> list B) (l : list A) (b : B) :
  b ∈ flat_map f l <-> exists a, a ∈ l /\ b ∈ f a.
Proof.
  rewrite list_elem_of_In, in_flat_map. split.
  - intros (a & Ha & Hb). exists a. by rewrite !list_elem_of_In.
  - intros (a & Ha & Hb). exists a. by rewrite <- !list_elem_of_In.
Qed.

(** The tests on truthiness do not matter: a loop over an empty list
    issues nothing. *)
Lemma _add_group_calls r :
  _add_group r
  = add_group (name (from_json r))
    :: flat_map (fun child => [add_group child; add_child (name (from_json r)) child])
                (children (from_json r))
    ++ map (fun kv => set_variable (name (from_json r)) kv.1 kv.2)
           (variables (from_json r)).
Proof.
  unfold _add_group. cbv zeta.
  by destruct (children (from_json r)), (variables (from_json r)).
Qed.

Lemma _add_host_calls r :
  _add_host r
  = add_host (name (from_json r)) None
    :: flat_map (fun group => [add_group group; add_host (name (from_json r)) (Some group)])
                (groups (from_json r))
    ++ map (fun kv => set_variable (name (from_json r)) kv.1 kv.2)
           (variables (from_json r)).
Proof.
  unfold _add_host. cbv zeta.
  by destruct (groups (from_json r)), (variables (from_json r)).
Qed.

Lemma classify_cases r :
  (type_ r = "ansible_group" /\ classify r = _add_group r) \/
  (type_ r ≠ "ansible_group" /\ type_ r = "ansible_host" /\ classify r = _add_host r) \/
  (type_ r ≠ "ansible_group" /\ type_ r ≠ "ansible_host" /\ classify r = []).
Proof.
  unfold classify.
  destruct (String.eqb_spec (type_ r) "ansible_group"); [by left|right].
  destruct (String.eqb_spec (type_ r) "ansible_host"); [by left|by right].
Qed.

Lemma add_host_in_add_group (h : string) r : add_host h None ∉ _add_group r.
Proof.
  rewrite _add_group_calls. intros Hin.
  apply elem_of_cons in Hin as [?|Hin]; [done|].
  apply elem_of_app in Hin as [Hin|Hin].
  - apply elem_of_flat_map_iff in Hin as (ch & _ & Hin).
    apply elem_of_cons in Hin as [?|Hin]; [done|].
    by apply list_elem_of_singleton in Hin.
  - apply list_elem_of_fmap in Hin as (kv & ? & _). done.
Qed.

Lemma add_host_in_add_host (h : string) r :
  add_host h None ∈ _add_host r <-> name (from_json r) = h.
Proof.
  rewrite _add_host_calls. split.
  - intros Hin. apply elem_of_cons in Hin as [[= ->]|Hin]; [done|].
    apply elem_of_app in Hin as [Hin|Hin].
    + apply elem_of_flat_map_iff in Hin as (g & _ & Hin).
      apply elem_of_cons in Hin as [?|Hin]; [done|].
      by apply list_elem_of_singleton in Hin.
    + apply list_elem_of_fmap in Hin as (kv & ? & _). done.
  - intros <-. apply elem_of_cons; by left.
Qed.

Lemma add_group_in_add_group (g : string) r :
  add_group g ∈ _add_group r
  <-> g = name (from_json r) \/ g ∈ children (from_json r).
Proof.
  rewrite _add_group_calls. split.
  - intros Hin. apply elem_of_cons in Hin as [[= ->]|Hin]; [by left|right].
    apply elem_of_app in Hin as [Hin|Hin].
    + apply elem_of_flat_map_iff in Hin as (ch & Hch & Hin).
      apply elem_of_cons in Hin as [[= ->]|Hin]; [done|].
      by apply list_elem_of_singleton in Hin.
    + apply list_elem_of_fmap in Hin as (kv & ? & _). done.
  - intros [->|Hin]; apply elem_of_cons; [by left|right].
    apply elem_of_app; left. apply elem_of_flat_map_iff.
    exists g. split; [done|]. apply elem_of_cons; by left.
Qed.

Lemma add_group_in_add_host (g : string) r :
  add_group g ∈ _add_host r <-> g ∈ groups (from_json r).
Proof.
  rewrite _add_host_calls. split.
  - intros Hin. apply elem_of_cons in Hin as [?|Hin]; [done|].
    apply elem_of_app in Hin as [Hin|Hin].
    + apply elem_of_flat_map_iff in Hin as (g' & Hg & Hin).
      apply elem_of_cons in Hin as [[= ->]|Hin]; [done|].
      by apply list_elem_of_singleton in Hin.
    + apply list_elem_of_fmap in Hin as (kv & ? & _). done.
  - intros Hin. apply elem_of_cons; right.
    apply elem_of_app; left. apply elem_of_flat_map_iff.
    exists g. split; [done|]. apply elem_of_cons; by left.
Qed.

Lemma assignments_app cs1 cs2 :
  assignments (cs1 ++ cs2) = assignments cs1 ++ assignments cs2.
Proof. apply omap_app. Qed.

Lemma assignments_variables (e : string) (vs : list (string * string)) :
  assignments (map (fun kv => set_variable e kv.1 kv.2) vs)
  = map (fun kv => (e, kv.1, kv.2)) vs.
Proof. induction vs as [|kv vs IH]; simpl; [done|]. by rewrite IH. Qed.

Lemma assignments_pairs {A} (f g : A -> inv_call) (l : list A) :
  (forall a, assignments [f a; g a] = []) ->
  assignments (flat_map (fun a => [f a; g a]) l) = [].
Proof.
  intros Hfg. induction l as [|a l IH]; [done|].
  change (flat_map (fun a => [f a; g a]) (a :: l))
    with ([f a; g a] ++ flat_map (fun a => [f a; g a]) l).
  by rewrite assignments_app, Hfg, IH.
Qed.

End Pass.

(** X1.  In a whole pass of [create_inventory], whatever the documents, every
    call refers only to what an earlier call of the same pass made: an
    [add_child] comes after the [add_group] of its parent and of its child,
    an [add_host] into a group after the [add_group] of that group, and a
    [set_variable] after the [add_group] or the [add_host] of its entity. *)
Theorem pass_well_ordered (docs : list (option TerraformShow)) (scm : bool) :
  well_ordered (create_inventory docs scm).
Proof.
  apply ordered_from_well_ordered. rewrite create_inventory_considered.
  apply ordered_from_resources.
Qed.

(** X2.  Documents are processed in the order of the list: the calls for two
    lists of documents, one after the other, are the calls for the first
    followed by the calls for the second. *)
Theorem documents_in_order (docs1 docs2 : list (option TerraformShow)) (scm : bool) :
  create_inventory (docs1 ++ docs2) scm
  = create_inventory docs1 scm ++ create_inventory docs2 scm.
Proof. apply create_inventory_app. Qed.

(** X3.  Searching the child modules only adds calls: the calls of a pass
    without [search_child_modules] are a subsequence of the calls of the
    pass with it, and for one document they are its first calls. *)
Theorem child_modules_only_add_calls (docs : list (option TerraformShow)) :
  create_inventory docs false `sublist_of` create_inventory docs true /\
  (forall state, create_inventory [Some state] false
                 `prefix_of` create_inventory [Some state] true).
Proof.
  assert (Hroot : forall m : TerraformModule,
             exists rest, flatten_resources m = resources m ++ rest).
  { intros [rs cs]. simpl. eauto. }
  split.
  - induction docs as [|[state|] docs IH]; simpl; [done| |done].
    apply sublist_app; [|done].
    destruct (Hroot (root_module (show_values state))) as [rest ->].
    rewrite flat_map_app'. by apply sublist_inserts_r.
  - intros state. simpl. rewrite !app_nil_r.
    destruct (Hroot (root_module (show_values state))) as [rest ->].
    rewrite flat_map_app'. by apply prefix_app_r.
Qed.

(** X4.  The hosts that a pass adds are the names of the host resources it
    looks at: [add_host h] is issued exactly when a considered resource of
    type "ansible_host" has the name [h]. *)
Theorem hosts_come_from_host_resources
        (docs : list (option TerraformShow)) (scm : bool) (h : string) :
  add_host h None ∈ create_inventory docs scm
  <-> exists r, r ∈ considered scm docs /\ type_ r = "ansible_host"
                /\ name (from_json r) = h.
Proof.
  rewrite create_inventory_considered, elem_of_flat_map_iff.
  split; intros (r & Hr & Hin); exists r; (split; [done|]).
  - destruct (classify_cases r) as [[_ Hc]|[(_ & Ht & Hc)|(_ & _ & Hc)]];
      rewrite Hc in Hin.
    + by apply add_host_in_add_group in Hin.
    + split; [done|]. by apply add_host_in_add_host.
    + by apply elem_of_nil in Hin.
  - destruct Hin as [Ht Hn]. rewrite (classify_host r Ht).
    by apply add_host_in_add_host.
Qed.

(** X5.  The groups that a pass creates are the names and the children of
    the group resources it looks at and the groups of the host resources it
    looks at, and no others. *)
Theorem groups_come_from_resources
        (docs : list (option TerraformShow)) (scm : bool) (g : string) :
  add_group g ∈ create_inventory docs scm
  <-> exists r, r ∈ considered scm docs /\
        ((type_ r = "ansible_group" /\
          (g = name (from_json r) \/ g ∈ children (from_json r))) \/
         (type_ r = "ansible_host" /\ g ∈ groups (from_json r))).
Proof.
  rewrite create_inventory_considered, elem_of_flat_map_iff.
  split; intros (r & Hr & Hin); exists r; (split; [done|]).
  - destruct (classify_cases r) as [[Ht Hc]|[(_ & Ht & Hc)|(_ & _ & Hc)]];
      rewrite Hc in Hin.
    + left. split; [done|]. by apply add_group_in_add_group.
    + right. split; [done|]. by apply add_group_in_add_host.
    + by apply elem_of_nil in Hin.
  - destruct Hin as [[Ht Hg]|[Ht Hg]].
    + rewrite (classify_group r Ht). by apply add_group_in_add_group.
    + rewrite (classify_host r Ht). by apply add_group_in_add_host.
Qed.

(** X6.  A record sets exactly its own variables: the [set_variable] calls
    of [_add_group] and of [_add_host] are one call per item of the
    variables of the record, on the name of the record, in the order of the
    dict. *)
Theorem record_sets_its_variables (r : TerraformModuleResource) :
  assignments (_add_group r)
  = map (fun kv => (name (from_json r), kv.1, kv.2)) (variables (from_json r)) /\
  assignments (_add_host r)
  = map (fun kv => (name (from_json r), kv.1, kv.2)) (variables (from_json r)).
Proof.
  rewrite _add_group_calls, _add_host_calls. split.
  - change (assignments (?c :: ?l)) with (assignments l).
    rewrite assignments_app, assignments_variables.
    by rewrite (assignments_pairs add_group (add_child (name (from_json r)))).
  - change (assignments (?c :: ?l)) with (assignments l).
    rewrite assignments_app, assignments_variables.
    by rewrite (assignments_pairs add_group
                  (fun g => add_host (name (from_json r)) (Some g))).
Qed.

(* ===================================================================== *)
(* More runs on concrete projects                                        *)
(* ===================================================================== *)

(** An edge before its groups is not well ordered; the calls of a group
    record with that edge are. *)
Example well_ordered_needs_groups :
  ~ well_ordered [add_child "web" "front"] /\
  well_ordered (_add_group (Sim.group "web" ["front"] [("region", "us-east")])).
Proof.
  split.
  - intros Hbad.
    destruct (Hbad [] (add_child "web" "front") [] [add_group "web"] eq_refl)
      as (d & _ & Hd).
    + apply elem_of_cons; by left.
    + by apply elem_of_nil in Hd.
  - apply ordered_from_well_ordered, ordered_from_add_group.
Qed.

Lemma binary_failure_before_any_command_witness :
  parse "." (fun _ => Raise (OtherError "not an executable")) (Return "terraform")
        Sim.workspace_list Sim.workspace_select Sim.show
        {| cfg_project_path := Some (Str "a"); cfg_state_file := None;
           cfg_search_child_modules := None;
           cfg_binary_path := Some "/opt/terraform"; cfg_workspace := None |}
        Sim.world_workspaces
  = (Raise (OtherError "not an executable"), Sim.world_workspaces, []).
Proof.
  exact (binary_failure_before_any_command "."
           (fun _ => Raise (OtherError "not an executable")) (Return "terraform")
           Sim.workspace_list Sim.workspace_select Sim.show
           {| cfg_project_path := Some (Str "a"); cfg_state_file := None;
              cfg_search_child_modules := None;
              cfg_binary_path := Some "/opt/terraform"; cfg_workspace := None |}
           (OtherError "not an executable") Sim.world_workspaces eq_refl).
Defined.

Lemma empty_project_list_does_nothing_witness :
  Sim.parse (Sim.cfg_paths [] None) Sim.world_child
  = (Return tt, Sim.world_child, []).
Proof.
  exact (empty_project_list_does_nothing "." (fun _ => Return tt)
           (Return "terraform") Sim.workspace_list Sim.workspace_select Sim.show
           (Sim.cfg_paths [] None) "terraform" Sim.world_child eq_refl eq_refl).
Defined.

Lemma first_failure_aborts_witness :
  Sim.parse (Sim.cfg_paths ["a"; "b"; "a"] None) Sim.world_hard_failure
  = (Raise (TerraformError "Error: state is corrupt"), Sim.world_hard_failure,
     [ev_workspace_list (Sim.terraform_at "a"); ev_show (Sim.terraform_at "a") "";
      ev_workspace_list (Sim.terraform_at "b"); ev_show (Sim.terraform_at "b") ""]).
Proof.
  refine (first_failure_aborts "." (fun _ => Return tt) (Return "terraform")
            Sim.workspace_list Sim.workspace_select Sim.show
            (Sim.cfg_paths ["a"; "b"; "a"] None) "terraform"
            ["a"] ["a"] "b" Sim.world_hard_failure
            [Some Sim.web1_doc] Sim.world_hard_failure
            [ev_workspace_list (Sim.terraform_at "a"); ev_show (Sim.terraform_at "a") ""]
            _ _ _ eq_refl eq_refl _ _); vm_compute; reflexivity.
Defined.

Lemma select_failure_is_fatal_witness :
  parse_path Sim.workspace_list
             (fun _ _ w => (Raise (TerraformWarning "workspace is locked"), w))
             Sim.show "terraform" "" "dev" "b" Sim.world_workspaces
  = (Raise (TerraformWarning "workspace is locked"), Sim.world_workspaces,
     [ev_workspace_list (Sim.terraform_at "b");
      ev_workspace_select (Sim.terraform_at "b") "dev"]).
Proof.
  refine (select_failure_is_fatal Sim.workspace_list
            (fun _ _ w => (Raise (TerraformWarning "workspace is locked"), w))
            Sim.show "terraform" "" "dev" "b" Sim.world_workspaces
            {| current := "default"; all := ["dev"; "default"] |}
            Sim.world_workspaces _ _ Sim.world_workspaces eq_refl _ _ eq_refl).
  - apply elem_of_cons; by left.
  - discriminate.
Defined.

Lemma hard_show_error_propagates_witness :
  Sim.parse_path "default" "b" Sim.world_hard_failure
  = (Raise (TerraformError "Error: state is corrupt"), Sim.world_hard_failure,
     [ev_workspace_list (Sim.terraform_at "b"); ev_show (Sim.terraform_at "b") ""]).
Proof.
  refine (hard_show_error_propagates Sim.workspace_list Sim.workspace_select Sim.show
            "terraform" "" "default" "b" Sim.world_hard_failure
            {| current := "default"; all := ["default"] |}
            Sim.world_hard_failure [ev_workspace_list (Sim.terraform_at "b")]
            Sim.world_hard_failure [] _ Sim.world_hard_failure
            eq_refl _ eq_refl eq_refl _).
  - by right.
  - discriminate.
Defined.

Lemma hard_listing_error_propagates_witness :
  Sim.parse_path "default" "nowhere" Sim.world_child
  = (Raise (TerraformError "not a terraform project"), Sim.world_child,
     [ev_workspace_list (Sim.terraform_at "nowhere")]).
Proof.
  refine (hard_listing_error_propagates Sim.workspace_list Sim.workspace_select
            Sim.show "terraform" "" "default" "nowhere" Sim.world_child
            _ Sim.world_child eq_refl _).
  discriminate.
Defined.

Lemma listing_warning_named_workspace_fails_witness :
  Sim.parse_path "dev" "c" Sim.world_workspaces
  = (Raise (TerraformError "Workspace dev does not exist in c"),
     Sim.world_workspaces, [ev_workspace_list (Sim.terraform_at "c")]).
Proof.
  refine (listing_warning_named_workspace_fails Sim.workspace_list
            Sim.workspace_select Sim.show "terraform" "" "dev" "c"
            Sim.world_workspaces "No workspaces" Sim.world_workspaces eq_refl _).
  discriminate.
Defined.

Lemma paths_visited_in_order_witness :
  listed (Sim.parse (Sim.cfg_paths ["a"; "b"; "c"] None) Sim.world_workspaces).2
  = [Sim.terraform_at "a"; Sim.terraform_at "b"; Sim.terraform_at "c"] /\
  shown (Sim.parse (Sim.cfg_paths ["a"; "b"; "c"] None) Sim.world_workspaces).2
  = [(Sim.terraform_at "a", ""); (Sim.terraform_at "b", "");
     (Sim.terraform_at "c", "")].
Proof.
  destruct (paths_visited_in_order "." (fun _ => Return tt) (Return "terraform")
              Sim.workspace_list Sim.workspace_select Sim.show
              (Sim.cfg_paths ["a"; "b"; "c"] None) "terraform"
              Sim.world_workspaces (Return tt) Sim.world_workspaces
              (Sim.parse (Sim.cfg_paths ["a"; "b"; "c"] None)
                         Sim.world_workspaces).2
              eq_refl) as (_ & _ & Hall); [vm_compute; reflexivity|].
  exact (Hall eq_refl).
Defined.
